(** * Relevance ranking of catalog products: [findRelevantProducts]

    A shallow embedding of the product-recommendation core of the shoe
    recognition backend (the revision of [findRelevantProducts] that scores
    products, filters, sorts and keeps the first six), together with the
    properties of keyword extraction, scoring and top-K selection.  Around
    it are embedded the two other revisions of the function ([ServerJs],
    [Untagged]), the catalog loader ([Loader]) and the endpoint that calls
    the ranking ([Endpoint]).

    Conventions of the embedding.
    - A JavaScript string is the list of its UTF-16 code units, so [length],
      [includes] and [split] below are the runtime's operations on code units.
    - [String.prototype.toLowerCase] belongs to the runtime (it needs the
      Unicode case tables); the model takes it as the section variable
      [toLowerCase].  [asciiLower] is the instance used to run examples: it
      agrees with the runtime on strings of ASCII characters.
    - A catalog row produced by the CSV reader is an object whose values are
      strings; a key that is missing reads as [undefined], modelled by [None].
    - The module-level variable [productsDatabase] is read once by the
      function and is passed as an explicit argument.
    - A JavaScript exception is the [Throw] completion; [console.log] calls
      are not modelled.
    - Scores are small sums of 1, 2 and 3, exact in a JavaScript number; they
      are integers here. *)

From Stdlib Require Import List NArith ZArith Arith Bool String Ascii Lia.
From Stdlib Require Import Sorted Permutation.
Import ListNotations.

Local Open Scope list_scope.

(** ** JavaScript strings *)

Definition code_unit := N.
Definition jsstring := list code_unit.

(** A string literal of the source, as code units. *)
Definition lit (s : string) : jsstring :=
  map N_of_ascii (list_ascii_of_string s).

Fixpoint jsstring_eqb (a b : jsstring) : bool :=
  match a, b with
  | [], [] => true
  | x :: a', y :: b' => N.eqb x y && jsstring_eqb a' b'
  | _, _ => false
  end.

(** [s.startsWith(p)] *)
Fixpoint startsWith (s p : jsstring) : bool :=
  match p with
  | [] => true
  | c :: p' =>
      match s with
      | [] => false
      | d :: s' => N.eqb c d && startsWith s' p'
      end
  end.

(** [s.includes(kw)]: [kw] occurs in [s] as a contiguous run of code units. *)
Fixpoint includes (s kw : jsstring) : bool :=
  startsWith s kw ||
  match s with
  | [] => false
  | _ :: s' => includes s' kw
  end.

(** [s.split(sep)] for a one-unit separator, generalised to a predicate on
    code units: every separator unit ends a token, so two adjacent separators
    enclose an empty token and the empty string splits into one empty token. *)
Fixpoint splitBy (is_sep : code_unit -> bool) (s : jsstring) : list jsstring :=
  match s with
  | [] => [[]]
  | c :: s' =>
      if is_sep c then [] :: splitBy is_sep s'
      else
        match splitBy is_sep s' with
        | [] => [[c]]
        | w :: ws => (c :: w) :: ws
        end
  end.

Definition SPACE : code_unit := 32%N.

(** [s.split(" ")] *)
Definition split_space (s : jsstring) : list jsstring :=
  splitBy (N.eqb SPACE) s.

(** [words.includes(word)] on an array of strings. *)
Definition array_includes (l : list jsstring) (w : jsstring) : bool :=
  existsb (jsstring_eqb w) l.

(** Lower-casing of the ASCII letters only. *)
Definition asciiLowerUnit (c : code_unit) : code_unit :=
  if (N.leb 65 c && N.leb c 90)%bool then (c + 32)%N else c.

Definition asciiLower (s : jsstring) : jsstring := map asciiLowerUnit s.

(** ** Completions: a value or a thrown exception *)

Inductive js_error : Type :=
| TypeError.

Inductive completion (A : Type) : Type :=
| Normal (a : A)
| Throw (e : js_error).

Arguments Normal {A} a.
Arguments Throw {A} e.

Definition bind {A B} (c : completion A) (k : A -> completion B) : completion B :=
  match c with
  | Normal a => k a
  | Throw e => Throw e
  end.

Notation "x <- c ;; k" := (bind c (fun x => k))
  (at level 61, c at next level, right associativity).

(** [l.forEach(f)] where the callback updates a captured variable of type [S]
    and may throw: the elements are visited in order and the first exception
    ends the loop. *)
Fixpoint forEach {A S} (f : S -> A -> completion S) (l : list A) (s : S)
  : completion S :=
  match l with
  | [] => Normal s
  | x :: l' => s' <- f s x ;; forEach f l' s'
  end.

(** [l.map(f)] with a callback that may throw. *)
Fixpoint mapM {A B} (f : A -> completion B) (l : list A) : completion (list B) :=
  match l with
  | [] => Normal []
  | x :: l' => y <- f x ;; ys <- mapM f l' ;; Normal (y :: ys)
  end.

(** [l.slice(0, k)] *)
Definition slice0 {A} (k : nat) (l : list A) : list A := firstn k l.

(** [l.sort(cmp)].  The language requires the sort to be stable, and for a
    consistent comparator the stable order is unique; it is computed here by
    insertion: [x], which precedes the elements of [l] in the input, moves
    behind [y] only when [cmp x y > 0]. *)
Fixpoint sort_insert {A} (cmp : A -> A -> Z) (x : A) (l : list A) : list A :=
  match l with
  | [] => [x]
  | y :: l' => if (0 <? cmp x y)%Z then y :: sort_insert cmp x l' else x :: l
  end.

Fixpoint sort {A} (cmp : A -> A -> Z) (l : list A) : list A :=
  match l with
  | [] => []
  | x :: l' => sort_insert cmp x (sort cmp l')
  end.

(** ** Data *)

(** A row of [productsDatabase]; the fields are the CSV columns the function
    reads: [Handle], [Title], ["Body (HTML)"], [Tags], [Vendor],
    ["Variant Price"], ["Image Src"]. *)
Record Row : Type := mkRow {
  Handle : option jsstring;
  Title : option jsstring;
  Body_HTML : option jsstring;
  Tags : option jsstring;
  Vendor : option jsstring;
  Variant_Price : option jsstring;
  Image_Src : option jsstring
}.

(** An entry of [shoeDetails.cleaningRecommendations]. *)
Record CleaningRecommendation : Type := mkRec {
  affectedPart : option jsstring;
  recommendations : option (list jsstring)
}.

(** [shoeDetails].  [materials] is the object's own properties in enumeration
    order, each a slot name and its value ([None] for [null]). *)
Record ShoeDetails : Type := mkShoe {
  brandAndModel : option jsstring;
  materials : option (list (jsstring * option jsstring));
  cleaningRecommendations : option (list CleaningRecommendation);
  recommendedTags : option (list jsstring)
}.

(** The objects [{ product, score }] built by the scoring pass. *)
Record ScoredMatch : Type := mkScored {
  product : Row;
  score : Z
}.

(** The objects returned to the caller. *)
Record ProductSummary : Type := mkSummary {
  id : option jsstring;
  title : option jsstring;
  price : jsstring;
  image : jsstring;
  vendor : option jsstring;
  url : jsstring
}.

(** Truthiness of a value that is a string or [undefined]/[null]. *)
Definition truthy (v : option jsstring) : bool :=
  match v with
  | Some (_ :: _) => true
  | _ => false
  end.

(** A value interpolated into a template literal. *)
Definition interpolate (v : option jsstring) : jsstring :=
  match v with
  | Some s => s
  | None => lit "undefined"
  end.

Definition stopwords : list jsstring :=
  [lit "with"; lit "and"; lit "the"; lit "for"; lit "your";
   lit "that"; lit "this"; lit "then"; lit "use"].

Section Ranking.

(** The runtime's [String.prototype.toLowerCase]. *)
Variable toLowerCase : jsstring -> jsstring.

(** *** Keyword extraction (the first half of [findRelevantProducts]) *)

(** The filter callback on the words of a recommendation. *)
Definition keepWord (word : jsstring) : bool :=
  (3 <? List.length word) && negb (array_includes stopwords word).

(** The callback of [Object.values(shoeDetails.materials).forEach]. *)
Definition materialStep (keywords : list jsstring) (material : option jsstring)
  : list jsstring :=
  match material with
  | Some m =>
      if truthy material
         && negb (jsstring_eqb (toLowerCase m) (lit "unknown"))
         && negb (jsstring_eqb (toLowerCase m) (lit "unspecified"))
      then keywords ++ [toLowerCase m]
      else keywords
  | None => keywords
  end.

(** The callback of [rec.recommendations.forEach]. *)
Definition recommendationStep (keywords : list jsstring) (recommendation : jsstring)
  : list jsstring :=
  let words := split_space (toLowerCase recommendation) in
  let filteredWords := filter keepWord words in
  keywords ++ filteredWords.

(** The callback of [shoeDetails.cleaningRecommendations.forEach]; reading
    [forEach] of a missing [recommendations] throws. *)
Definition cleaningStep (keywords : list jsstring) (rec : CleaningRecommendation)
  : completion (list jsstring) :=
  let keywords :=
    match affectedPart rec with
    | Some part => if truthy (affectedPart rec)
                   then keywords ++ [toLowerCase part] else keywords
    | None => keywords
    end in
  match recommendations rec with
  | None => Throw TypeError
  | Some rs => Normal (fold_left recommendationStep rs keywords)
  end.

Definition extractKeywords (shoeDetails : ShoeDetails) : completion (list jsstring) :=
  let keywords : list jsstring := [] in
  let keywords :=
    match brandAndModel shoeDetails with
    | Some bm =>
        if truthy (brandAndModel shoeDetails)
        then keywords ++ split_space (toLowerCase bm)
        else keywords
    | None => keywords
    end in
  let keywords :=
    match materials shoeDetails with
    | Some ms => fold_left materialStep (map snd ms) keywords
    | None => keywords
    end in
  keywords <-
    match cleaningRecommendations shoeDetails with
    | Some recs => forEach cleaningStep recs keywords
    | None => Normal keywords
    end ;;
  let keywords :=
    match recommendedTags shoeDetails with
    | Some tags => keywords ++ map toLowerCase tags
    | None => keywords
    end in
  Normal keywords.

(** *** Scoring *)

Definition productText (p : Row) : jsstring :=
  toLowerCase
    (interpolate (Title p) ++ [SPACE] ++ interpolate (Body_HTML p) ++ [SPACE]
     ++ interpolate (Tags p) ++ [SPACE] ++ interpolate (Vendor p)).

(** The callback of [keywords.forEach] inside the scoring pass; [score] is the
    captured accumulator.  [product.Title.toLowerCase()] throws when the row
    has no [Title]; [product.Tags] is guarded by a truthiness test. *)
Definition scoreStep (p : Row) (text : jsstring) (score : Z) (keyword : jsstring)
  : completion Z :=
  if includes text keyword then
    match Title p with
    | None => Throw TypeError
    | Some t =>
        if includes (toLowerCase t) keyword then Normal (score + 3)%Z
        else
          if truthy (Tags p)
             && match Tags p with
                | Some tg => includes (toLowerCase tg) keyword
                | None => false
                end
          then Normal (score + 2)%Z
          else Normal (score + 1)%Z
    end
  else Normal score.

(** The callback of [productsDatabase.map]. *)
Definition scoreProduct (keywords : list jsstring) (p : Row) : completion ScoredMatch :=
  let text := productText p in
  s <- forEach (scoreStep p text) keywords 0%Z ;;
  Normal {| product := p; score := s |}.

(** *** Selection *)

Definition hasMatches (item : ScoredMatch) : bool := (0 <? score item)%Z.

(** [(a, b) => b.score - a.score] *)
Definition byScoreDesc (a b : ScoredMatch) : Z := (score b - score a)%Z.

Definition PRICE_NOT_AVAILABLE : jsstring := lit "Price not available".
Definition PLACEHOLDER_IMAGE : jsstring :=
  lit "https://via.placeholder.com/200x150?text=No+Image".
Definition PRODUCT_BASE_URL : jsstring := lit "https://example.com/products/".

Definition toSummary (item : ScoredMatch) : ProductSummary :=
  let p := product item in
  {| id := Handle p;
     title := Title p;
     price := if truthy (Variant_Price p)
              then lit "$" ++ interpolate (Variant_Price p)
              else PRICE_NOT_AVAILABLE;
     image := if truthy (Image_Src p)
              then interpolate (Image_Src p)
              else PLACEHOLDER_IMAGE;
     vendor := Vendor p;
     url := PRODUCT_BASE_URL ++ interpolate (Handle p) |}.

Definition TOP_K : nat := 6.

(** The ranked items before the final mapping to summaries. *)
Definition topMatches (scoredProducts : list ScoredMatch) : list ScoredMatch :=
  slice0 TOP_K (sort byScoreDesc (filter hasMatches scoredProducts)).

Definition findRelevantProducts (productsDatabase : list Row) (shoeDetails : ShoeDetails)
  : completion (list ProductSummary) :=
  if Nat.eqb (List.length productsDatabase) 0 then Normal []
  else
    keywords <- extractKeywords shoeDetails ;;
    scoredProducts <- mapM (scoreProduct keywords) productsDatabase ;;
    Normal (map toSummary (topMatches scoredProducts)).

End Ranking.

(** ** The earlier revision kept in [server.js]

    It extracts fewer keywords (no sentinel test, no recommendation words,
    no tags), keeps the products whose text contains some keyword, in
    catalog order, and returns the first five.  Nothing in it can throw on
    the data modelled here. *)

Module ServerJs.

Record ProductSummary : Type := mkSummary {
  id : option jsstring;
  title : option jsstring;
  price : jsstring;
  image : jsstring;
  url : jsstring
}.

Section Revision.

Variable toLowerCase : jsstring -> jsstring.

Definition extractKeywords (shoeDetails : ShoeDetails) : list jsstring :=
  let keywords : list jsstring := [] in
  let keywords :=
    match brandAndModel shoeDetails with
    | Some bm =>
        if truthy (brandAndModel shoeDetails)
        then keywords ++ split_space (toLowerCase bm)
        else keywords
    | None => keywords
    end in
  let keywords :=
    match materials shoeDetails with
    | Some ms =>
        fold_left
          (fun kws material =>
             match material with
             | Some m => if truthy material then kws ++ [toLowerCase m] else kws
             | None => kws
             end)
          (map snd ms) keywords
    | None => keywords
    end in
  match cleaningRecommendations shoeDetails with
  | Some recs =>
      fold_left
        (fun kws rec =>
           match affectedPart rec with
           | Some part => if truthy (affectedPart rec)
                          then kws ++ [toLowerCase part] else kws
           | None => kws
           end)
        recs keywords
  | None => keywords
  end.

Definition productText (p : Row) : jsstring :=
  toLowerCase
    (interpolate (Title p) ++ [SPACE] ++ interpolate (Body_HTML p) ++ [SPACE]
     ++ interpolate (Tags p)).

Definition toSummary (p : Row) : ProductSummary :=
  {| id := Handle p;
     title := Title p;
     price := if truthy (Variant_Price p)
              then lit "$" ++ interpolate (Variant_Price p)
              else lit "Price not available";
     image := if truthy (Image_Src p)
              then interpolate (Image_Src p)
              else lit "https://via.placeholder.com/200x150?text=No+Image";
     url := lit "https://example.com/products/" ++ interpolate (Handle p) |}.

Definition findRelevantProducts (productsDatabase : list Row) (shoeDetails : ShoeDetails)
  : list ProductSummary :=
  if Nat.eqb (List.length productsDatabase) 0 then []
  else
    let keywords := extractKeywords shoeDetails in
    let relevantProducts :=
      filter (fun p => existsb (fun keyword => includes (productText p) keyword) keywords)
             productsDatabase in
    map toSummary (slice0 5 relevantProducts).

End Revision.

End ServerJs.

(** ** Reading the model: derived notions used in the statements *)

(** A row with every key missing; the default of positional look-ups. *)
Definition emptyRow : Row := mkRow None None None None None None None.

(** The summary built from a row (the mapping reads [item.product] only). *)
Definition summaryOfRow (p : Row) : ProductSummary := toSummary (mkScored p 0).

(** The score of a row recomputed against a keyword sequence. *)
Definition scoreOf (toLowerCase : jsstring -> jsstring)
  (keywords : list jsstring) (p : Row) : Z :=
  match scoreProduct toLowerCase keywords p with
  | Normal item => score item
  | Throw _ => 0%Z
  end.

Definition sumZ (l : list Z) : Z := fold_right Z.add 0%Z l.

(** Positions of a list paired with its elements. *)
Definition tag {A} (l : list A) : list (nat * A) := combine (seq 0 (List.length l)) l.

(** The ranking carried out on (position, score) pairs: the catalog positions
    of the selected products, best first. *)
Definition rankedPositions (scores : list Z) : list nat :=
  map fst
    (slice0 TOP_K
       (sort (fun a b : nat * Z => (snd b - snd a)%Z)
             (filter (fun a : nat * Z => (0 <? snd a)%Z) (tag scores)))).

(** The ranking before truncation: every catalog position with a positive
    score, best first. *)
Definition rankedAll (scores : list Z) : list nat :=
  map fst
    (sort (fun a b : nat * Z => (snd b - snd a)%Z)
          (filter (fun a : nat * Z => (0 <? snd a)%Z) (tag scores))).

(** The order of the ranking on positions: higher score first, and among
    equal scores the smaller catalog position first. *)
Definition ranksBefore (scores : list Z) (i j : nat) : Prop :=
  (nth j scores 0 < nth i scores 0)%Z \/
  (nth i scores 0%Z = nth j scores 0%Z /\ i < j).

(** The order on (position, score) pairs produced by the sort. *)
Definition pairBefore (a b : nat * Z) : Prop :=
  (snd b < snd a)%Z \/ (snd a = snd b /\ fst a < fst b).

Definition pairCmp (a b : nat * Z) : Z := (snd b - snd a)%Z.

(** The pairs selected by the ranking. *)
Definition rankedPairs (scores : list Z) : list (nat * Z) :=
  slice0 TOP_K (sort pairCmp (filter (fun a : nat * Z => (0 <? snd a)%Z) (tag scores))).

(** ** Specification-side definitions *)

(** The contribution of one keyword occurrence, as the specification words
    it: 0 unless the lower-cased, space-joined text of title, body, tags and
    vendor contains the keyword; otherwise 3 for a title match, else 2 for a
    tags match, else 1. *)
Definition contribution (toLowerCase : jsstring -> jsstring)
  (t b g v : jsstring) (keyword : jsstring) : Z :=
  if includes (toLowerCase (t ++ [SPACE] ++ b ++ [SPACE] ++ g ++ [SPACE] ++ v)) keyword
  then
    if includes (toLowerCase t) keyword then 3%Z
    else if includes (toLowerCase g) keyword then 2%Z
    else 1%Z
  else 0%Z.

(** Tab, line feed, vertical tab, form feed, carriage return and space. *)
Definition is_whitespace (c : code_unit) : bool :=
  existsb (N.eqb c) [9; 10; 11; 12; 13; 32]%N.

(** The string held by a field, when the field is present and non-empty. *)
Definition present (v : option jsstring) : list jsstring :=
  match v with
  | Some (c :: s) => [c :: s]
  | _ => []
  end.

Definition isSentinel (m : jsstring) : bool :=
  jsstring_eqb m (lit "unknown") || jsstring_eqb m (lit "unspecified").

Definition inStopwordSet (w : jsstring) : bool :=
  if in_dec (list_eq_dec N.eq_dec) w stopwords then true else false.

(** The keyword sequence as the specification words it, for a given way of
    splitting a string into words: the tokens of [brandAndModel]; the
    non-empty, non-sentinel material values; for each cleaning entry its
    [affectedPart] and the words of its recommendations that are longer than
    three units and outside the stopword set; the recommended tags.
    Everything is lower-cased and nothing is deduplicated. *)
Definition describedKeywords (toLowerCase : jsstring -> jsstring)
  (splitWords : jsstring -> list jsstring) (sd : ShoeDetails) : list jsstring :=
  flat_map (fun bm => splitWords (toLowerCase bm)) (present (brandAndModel sd))
  ++ match materials sd with
     | Some ms =>
         filter (fun m => negb (isSentinel m))
                (map toLowerCase (flat_map (fun kv => present (snd kv)) ms))
     | None => []
     end
  ++ match cleaningRecommendations sd with
     | Some recs =>
         flat_map
           (fun rec =>
              map toLowerCase (present (affectedPart rec))
              ++ flat_map
                   (fun r => filter (fun w => (3 <? List.length w)
                                              && negb (inStopwordSet w))
                                    (splitWords (toLowerCase r)))
                   (match recommendations rec with Some rs => rs | None => [] end))
           recs
     | None => []
     end
  ++ match recommendedTags sd with
     | Some tags => map toLowerCase tags
     | None => []
     end.

(** Every cleaning entry carries its [recommendations] array. *)
Definition recommendationsPresent (sd : ShoeDetails) : Prop :=
  match cleaningRecommendations sd with
  | Some recs => Forall (fun rec => recommendations rec <> None) recs
  | None => True
  end.

(** Every catalog row has a [Title]. *)
Definition titled (db : list Row) : Prop :=
  Forall (fun p => Title p <> None) db.

(** ** The worked example of the specification *)

Module Scenario.

Definition P1 : Row :=
  mkRow (Some (lit "p1")) (Some (lit "Leather Cleaner Spray")) (Some [])
        (Some (lit "cleaner,leather")) (Some (lit "Acme")) (Some (lit "9.99")) None.
Definition P2 : Row :=
  mkRow (Some (lit "p2")) (Some (lit "Suede Brush")) (Some (lit "works well"))
        (Some (lit "brush,suede")) (Some (lit "Acme")) (Some []) None.
Definition P3 : Row :=
  mkRow (Some (lit "p3")) (Some (lit "Generic Shoe Polish"))
        (Some (lit "contains leather conditioner"))
        (Some (lit "polish")) (Some (lit "Acme")) (Some (lit "5.00")) None.

Definition catalog : list Row := [P1; P2; P3].

Definition description : ShoeDetails :=
  mkShoe None
         (Some [(lit "upper", Some (lit "leather"))])
         (Some [mkRec (Some (lit "Upper"))
                      (Some [lit "Use a leather cleaner regularly"])])
         None.

Definition keywords : list jsstring :=
  [lit "leather"; lit "upper"; lit "leather"; lit "cleaner"; lit "regularly"].

Definition ranked : list ProductSummary := [summaryOfRow P1; summaryOfRow P3].

(** A catalog with more than six matching rows. *)
Definition bigCatalog : list Row := [P3; P1; P3; P1; P3; P1; P3; P1; P2].

End Scenario.

(** ** Inputs used to exercise the properties *)

(** A brand whose two words are separated by a tab. *)
Definition tabbedBrand : ShoeDetails :=
  mkShoe (Some (lit "Air" ++ [9%N] ++ lit "Max")) None None None.

(** A row without [Title], as the CSV reader yields for a short line. *)
Definition untitledRow : Row :=
  mkRow (Some (lit "p9")) None (Some (lit "leather care kit")) None None None None.

Definition leatherUpper : ShoeDetails :=
  mkShoe None (Some [(lit "upper", Some (lit "leather"))]) None None.

(** A cleaning entry that has an [affectedPart] and no [recommendations]. *)
Definition entryWithoutRecommendations : ShoeDetails :=
  mkShoe None None (Some [mkRec (Some (lit "Upper")) None]) None.

(** A row with only [Handle] and [Title], and a brand that occurs in the
    word "undefined". *)
Definition bareRow : Row :=
  mkRow (Some (lit "p7")) (Some (lit "Brush")) None None None None None.

Definition fineBrand : ShoeDetails := mkShoe (Some (lit "Fine")) None None None.

Definition unknownUpper : ShoeDetails :=
  mkShoe None (Some [(lit "upper", Some (lit "Unknown"));
                     (lit "outsole", Some (lit "Rubber"))]) None None.

Definition emptyDescription : ShoeDetails := mkShoe None None None None.

(** ** Further notions read off the scoring pass *)

(** What one keyword occurrence adds to the score of a row. *)
Definition keywordGain (toLowerCase : jsstring -> jsstring)
  (p : Row) (keyword : jsstring) : Z :=
  match scoreStep toLowerCase p (productText toLowerCase p) 0 keyword with
  | Normal s => s
  | Throw _ => 0%Z
  end.

(** The keyword occurrences that the text of a row contains. *)
Definition matchingKeywords (toLowerCase : jsstring -> jsstring)
  (keywords : list jsstring) (p : Row) : list jsstring :=
  filter (fun keyword => includes (productText toLowerCase p) keyword) keywords.

(** The number of strictly positive scores. *)
Definition positiveCount (scores : list Z) : nat :=
  List.length (filter (fun s => (0 <? s)%Z) scores).

(** ** The revision without recommended tags

    The third copy of the server has the same [findRelevantProducts] except
    that the block reading [shoeDetails.recommendedTags] is absent. *)

Module Untagged.

Section Revision.

Variable toLowerCase : jsstring -> jsstring.

Definition extractKeywords (shoeDetails : ShoeDetails) : completion (list jsstring) :=
  let keywords : list jsstring := [] in
  let keywords :=
    match brandAndModel shoeDetails with
    | Some bm =>
        if truthy (brandAndModel shoeDetails)
        then keywords ++ split_space (toLowerCase bm)
        else keywords
    | None => keywords
    end in
  let keywords :=
    match materials shoeDetails with
    | Some ms => fold_left (materialStep toLowerCase) (map snd ms) keywords
    | None => keywords
    end in
  keywords <-
    match cleaningRecommendations shoeDetails with
    | Some recs => forEach (cleaningStep toLowerCase) recs keywords
    | None => Normal keywords
    end ;;
  Normal keywords.

Definition findRelevantProducts (productsDatabase : list Row) (shoeDetails : ShoeDetails)
  : completion (list ProductSummary) :=
  if Nat.eqb (List.length productsDatabase) 0 then Normal []
  else
    keywords <- extractKeywords shoeDetails ;;
    scoredProducts <- mapM (scoreProduct toLowerCase keywords) productsDatabase ;;
    Normal (map toSummary (topMatches scoredProducts)).

End Revision.

End Untagged.

(** ** Loading the catalog: [loadProductsDatabase]

    The function registers three handlers on the CSV stream and returns; the
    stream then delivers its events one at a time.  A load is modelled by its
    state (the local array [results] and what the module variable
    [productsDatabase] refers to) and by the effect of each handler.  The
    "end" handler assigns [results] itself, so afterwards both names denote
    one array. *)

Module Loader.

Inductive DbRef : Type :=
| SharedWithResults
| Own (rows : list Row).

Record State : Type := mkState {
  results : list Row;
  productsDatabase : DbRef
}.

(** The array that a reader of [productsDatabase] sees. *)
Definition currentDatabase (st : State) : list Row :=
  match productsDatabase st with
  | SharedWithResults => results st
  | Own rows => rows
  end.

Inductive StreamEvent : Type :=
| Data (row : Row)
| End
| Error.

(** How the synchronous part goes: [fs.existsSync] answers no, the block
    throws before the stream is set up, or the stream is opened. *)
Inductive Setup : Type :=
| FileMissing
| SetupThrows
| StreamOpened.

(** The state when [loadProductsDatabase] returns; [old] is the array that
    [productsDatabase] held before the call. *)
Definition loadProductsDatabase (setup : Setup) (old : list Row) : State :=
  match setup with
  | FileMissing => mkState [] (Own [])
  | SetupThrows => mkState [] (Own [])
  | StreamOpened => mkState [] (Own old)
  end.

(** The handlers of "data", "end" and "error". *)
Definition onEvent (st : State) (e : StreamEvent) : State :=
  match e with
  | Data row => mkState (results st ++ [row]) (productsDatabase st)
  | End => mkState (results st) SharedWithResults
  | Error => mkState (results st) (Own [])
  end.

Definition run (st : State) (events : list StreamEvent) : State :=
  fold_left onEvent events st.

(** The handlers of [server.js]: its "error" handler only logs. *)
Definition onEventServerJs (st : State) (e : StreamEvent) : State :=
  match e with
  | Data row => mkState (results st ++ [row]) (productsDatabase st)
  | End => mkState (results st) SharedWithResults
  | Error => st
  end.

Definition runServerJs (st : State) (events : list StreamEvent) : State :=
  fold_left onEventServerJs events st.

(** The rows delivered by a sequence of events, in order. *)
Definition rowsOf (events : list StreamEvent) : list Row :=
  flat_map (fun e => match e with Data row => [row] | _ => [] end) events.

Inductive Signal : Type :=
| Ended
| Failed.

(** The last "end" or "error" of a sequence of events, if any. *)
Definition lastSignal (events : list StreamEvent) : option Signal :=
  fold_left (fun acc e => match e with
                          | Data _ => acc
                          | End => Some Ended
                          | Error => Some Failed
                          end) events None.

(** What [productsDatabase] refers to after a load whose last signal is
    [sig]; [old] is what it held before. *)
Definition refOf (old : list Row) (sig : option Signal) : DbRef :=
  match sig with
  | None => Own old
  | Some Ended => SharedWithResults
  | Some Failed => Own []
  end.

Definition isError (e : StreamEvent) : bool :=
  match e with
  | Error => true
  | _ => false
  end.

End Loader.

(** ** The endpoint [POST /analyze-shoe] (the revision with recommended tags)

    The handler validates the request, builds the prompt, asks the vision
    service whether the image is usable, asks it for the analysis, ranks the
    catalog against the parsed reply and answers.  The two calls to the
    service are the only interaction: the service is modelled by the reply it
    gives to each request ([qualityService], [analysisService]), and the
    handler returns its response together with the calls it made, in order.
    The fields of the request body are strings or missing.  The fixed
    parameters of a call (model name, temperature and so on) are left out of
    the modelled request; the reply to the analysis call is the parsed
    description, or a failure when the call or [JSON.parse] throws. *)

Module Endpoint.

(** A string literal of the source in which the double quote is written as
    a backquote (a character that cannot occur in a template literal). *)
Definition litq (s : string) : jsstring :=
  map (fun a => if Ascii.eqb a "`"%char then 34%N else N_of_ascii a)
      (list_ascii_of_string s).

(** The code units removed by [String.prototype.trim]: white space and line
    terminators. *)
Definition isTrimSpace (c : code_unit) : bool :=
  existsb (N.eqb c)
          [9; 10; 11; 12; 13; 32; 160; 5760; 8232; 8233; 8239; 8287; 12288; 65279]%N
  || (N.leb 8192 c && N.leb c 8202).

Fixpoint trimStart (s : jsstring) : jsstring :=
  match s with
  | [] => []
  | c :: s' => if isTrimSpace c then trimStart s' else s
  end.

(** [s.trim()] *)
Definition trim (s : jsstring) : jsstring :=
  rev (trimStart (rev (trimStart s))).

(** An entry of [translations]; the nested object [responseFormat] is
    flattened, and of each array the element read by the prompt is kept. *)
Record Translation : Type := mkTranslation {
  t_systemPrompt : jsstring;
  t_brandAndModel : jsstring;
  t_upper : jsstring;
  t_lining : jsstring;
  t_insole : jsstring;
  t_outsole : jsstring;
  t_laces : jsstring;
  t_tongue : jsstring;
  t_affectedPart : jsstring;
  t_recommendation : jsstring;
  t_generalCare : jsstring;
  t_recommendedTag : jsstring
}.

Definition translation_en : Translation :=
  {| t_systemPrompt := lit "You are a shoe product e-shop assistant trained to identify shoe models, materials, and provide cleaning recommendations.";
     t_brandAndModel := lit "Shoe brand and model name";
     t_upper := lit "Material of the upper";
     t_lining := lit "Material of the lining";
     t_insole := lit "Material of the insole";
     t_outsole := lit "Material of the outsole";
     t_laces := lit "Material of the laces";
     t_tongue := lit "Material of the tongue";
     t_affectedPart := lit "The affected part of the shoe";
     t_recommendation := lit "List of cleaning recommendations";
     t_generalCare := lit "General care tips for the shoe";
     t_recommendedTag := lit "Tags for product recommendations" |}.

Definition translation_ru : Translation :=
  {| t_systemPrompt :=
  [1042; 1099; 32; 1087; 1086; 1084; 1086; 1097; 1085; 1080; 1082; 32;
   1080; 1085; 1090; 1077; 1088; 1085; 1077; 1090; 45; 1084; 1072; 1075;
   1072; 1079; 1080; 1085; 1072; 32; 1086; 1073; 1091; 1074; 1080; 44; 32;
   1086; 1073; 1091; 1095; 1077; 1085; 1085; 1099; 1081; 32; 1086; 1087;
   1088; 1077; 1076; 1077; 1083; 1103; 1090; 1100; 32; 1084; 1086; 1076;
   1077; 1083; 1080; 32; 1086; 1073; 1091; 1074; 1080; 44; 32; 1084; 1072;
   1090; 1077; 1088; 1080; 1072; 1083; 1099; 32; 1080; 32; 1087; 1088;
   1077; 1076; 1086; 1089; 1090; 1072; 1074; 1083; 1103; 1090; 1100; 32;
   1088; 1077; 1082; 1086; 1084; 1077; 1085; 1076; 1072; 1094; 1080; 1080;
   32; 1087; 1086; 32; 1095; 1080; 1089; 1090; 1082; 1077; 46]%N;
     t_brandAndModel :=
  [1041; 1088; 1077; 1085; 1076; 32; 1080; 32; 1085; 1072; 1079; 1074;
   1072; 1085; 1080; 1077; 32; 1084; 1086; 1076; 1077; 1083; 1080; 32;
   1086; 1073; 1091; 1074; 1080]%N;
     t_upper :=
  [1052; 1072; 1090; 1077; 1088; 1080; 1072; 1083; 32; 1074; 1077; 1088;
   1093; 1072]%N;
     t_lining :=
  [1052; 1072; 1090; 1077; 1088; 1080; 1072; 1083; 32; 1087; 1086; 1076;
   1082; 1083; 1072; 1076; 1082; 1080]%N;
     t_insole :=
  [1052; 1072; 1090; 1077; 1088; 1080; 1072; 1083; 32; 1089; 1090; 1077;
   1083; 1100; 1082; 1080]%N;
     t_outsole :=
  [1052; 1072; 1090; 1077; 1088; 1080; 1072; 1083; 32; 1087; 1086; 1076;
   1086; 1096; 1074; 1099]%N;
     t_laces :=
  [1052; 1072; 1090; 1077; 1088; 1080; 1072; 1083; 32; 1096; 1085; 1091;
   1088; 1082; 1086; 1074]%N;
     t_tongue :=
  [1052; 1072; 1090; 1077; 1088; 1080; 1072; 1083; 32; 1103; 1079; 1099;
   1095; 1082; 1072]%N;
     t_affectedPart :=
  [1055; 1086; 1074; 1088; 1077; 1078; 1076; 1077; 1085; 1085; 1072; 1103;
   32; 1095; 1072; 1089; 1090; 1100; 32; 1086; 1073; 1091; 1074; 1080]%N;
     t_recommendation :=
  [1057; 1087; 1080; 1089; 1086; 1082; 32; 1088; 1077; 1082; 1086; 1084;
   1077; 1085; 1076; 1072; 1094; 1080; 1081; 32; 1087; 1086; 32; 1095;
   1080; 1089; 1090; 1082; 1077]%N;
     t_generalCare :=
  [1054; 1073; 1097; 1080; 1077; 32; 1089; 1086; 1074; 1077; 1090; 1099;
   32; 1087; 1086; 32; 1091; 1093; 1086; 1076; 1091; 32; 1079; 1072; 32;
   1086; 1073; 1091; 1074; 1100; 1102]%N;
     t_recommendedTag :=
  [1058; 1077; 1075; 1080; 32; 1076; 1083; 1103; 32; 1088; 1077; 1082;
   1086; 1084; 1077; 1085; 1076; 1072; 1094; 1080; 1081; 32; 1087; 1088;
   1086; 1076; 1091; 1082; 1090; 1086; 1074]%N |}.

Definition translation_lt : Translation :=
  {| t_systemPrompt :=
  [74; 363; 115; 32; 101; 115; 97; 116; 101; 32; 98; 97; 116; 371; 32;
   101; 108; 101; 107; 116; 114; 111; 110; 105; 110; 279; 115; 32; 112;
   97; 114; 100; 117; 111; 116; 117; 118; 279; 115; 32; 97; 115; 105; 115;
   116; 101; 110; 116; 97; 115; 44; 32; 97; 112; 109; 111; 107; 121; 116;
   97; 115; 32; 97; 116; 112; 97; 382; 105; 110; 116; 105; 32; 98; 97;
   116; 371; 32; 109; 111; 100; 101; 108; 105; 117; 115; 44; 32; 109; 101;
   100; 382; 105; 97; 103; 97; 115; 32; 105; 114; 32; 116; 101; 105; 107;
   116; 105; 32; 118; 97; 108; 121; 109; 111; 32; 114; 101; 107; 111; 109;
   101; 110; 100; 97; 99; 105; 106; 97; 115; 46]%N;
     t_brandAndModel :=
  [66; 97; 116; 371; 32; 112; 114; 101; 107; 279; 115; 32; 382; 101; 110;
   107; 108; 97; 115; 32; 105; 114; 32; 109; 111; 100; 101; 108; 105; 111;
   32; 112; 97; 118; 97; 100; 105; 110; 105; 109; 97; 115]%N;
     t_upper :=
  [86; 105; 114; 353; 117; 116; 105; 110; 279; 115; 32; 100; 97; 108; 105;
   101; 115; 32; 109; 101; 100; 382; 105; 97; 103; 97]%N;
     t_lining :=
  [80; 97; 109; 117; 353; 97; 108; 111; 32; 109; 101; 100; 382; 105; 97;
   103; 97]%N;
     t_insole :=
  [86; 105; 100; 112; 97; 100; 382; 105; 111; 32; 109; 101; 100; 382; 105;
   97; 103; 97]%N;
     t_outsole :=
  [80; 97; 100; 111; 32; 109; 101; 100; 382; 105; 97; 103; 97]%N;
     t_laces :=
  [82; 97; 105; 353; 116; 101; 108; 105; 371; 32; 109; 101; 100; 382; 105;
   97; 103; 97]%N;
     t_tongue :=
  [76; 105; 101; 382; 117; 118; 279; 108; 105; 111; 32; 109; 101; 100;
   382; 105; 97; 103; 97]%N;
     t_affectedPart :=
  [80; 97; 118; 101; 105; 107; 116; 97; 32; 98; 97; 116; 371; 32; 100; 97;
   108; 105; 115]%N;
     t_recommendation :=
  [86; 97; 108; 121; 109; 111; 32; 114; 101; 107; 111; 109; 101; 110; 100;
   97; 99; 105; 106; 371; 32; 115; 261; 114; 97; 353; 97; 115]%N;
     t_generalCare :=
  [66; 101; 110; 100; 114; 105; 32; 98; 97; 116; 371; 32; 112; 114; 105;
   101; 382; 105; 363; 114; 111; 115; 32; 112; 97; 116; 97; 114; 105; 109;
   97; 105]%N;
     t_recommendedTag :=
  [381; 121; 109; 111; 115; 32; 112; 114; 111; 100; 117; 107; 116; 371;
   32; 114; 101; 107; 111; 109; 101; 110; 100; 97; 99; 105; 106; 111; 109;
   115]%N |}.

Definition promptText0 : jsstring :=
  litq "
  ".

Definition promptText1 : jsstring :=
  litq "

  Analyze the ".

Definition promptText2 : jsstring :=
  litq " and return the information in the following format:
  
  {
    `brandAndModel`: `".

Definition promptText3 : jsstring :=
  litq "`,
    `materials`: {
      `upper`: `".

Definition promptText4 : jsstring :=
  litq "`,
      `lining`: `".

Definition promptText5 : jsstring :=
  litq "`,
      `insole`: `".

Definition promptText6 : jsstring :=
  litq "`,
      `outsole`: `".

Definition promptText7 : jsstring :=
  litq "`,
      `laces`: `".

Definition promptText8 : jsstring :=
  litq "`,
      `tongue`: `".

Definition promptText9 : jsstring :=
  litq "`
    },
    `cleaningRecommendations`: [
      {
        `affectedPart`: `".

Definition promptText10 : jsstring :=
  litq "`,
        `recommendations`: [
          `".

Definition promptText11 : jsstring :=
  litq "`
        ]
      }
    ],
    `generalCare`: [`".

Definition promptText12 : jsstring :=
  litq "`],
    `recommendedTags`: [`".

Definition promptText13 : jsstring :=
  litq "`]
  }
  
  # Notes
  - If the brand and model cannot be recognized, provide your best estimate or mark it as `unknown.`
  - In cases where part of the material cannot be clearly identified, use `unspecified` or `possibly [type]` for transparency.
  - Be as specific as possible, but avoid guessing if the information is not recognizable.
  - Please format the response as JSON with the appropriate details based on the ".

Definition promptText14 : jsstring :=
  litq ".
  ".

Definition brandNoteBefore : jsstring :=
  litq " The user has provided the brand/model: `".

Definition brandNoteAfter : jsstring :=
  litq "`. Use this information to identify the shoe and its characteristics as accurately as possible.".

Definition noImageNote : jsstring :=
  litq " Since no image was provided, rely entirely on the brand/model information to determine the materials, appropriate cleaning recommendations, and general care tips for this type of shoe.".

Definition problemNoteBefore : jsstring :=
  litq " The user has described the following issue: `".

Definition problemNoteAfter : jsstring :=
  litq "`.".

Definition tagsRequest : jsstring :=
  litq "
    
    In addition to the standard analysis, please provide 1 tag from each category (2 tags from Shoe Care Subcategories) that most accurately describes the products this shoe would need to resolve the problem. 
    These tags should be from the following categories:
    - General Categories: Shoe Care, Accessories, Insole
    - Shoe Care Subcategories: Cleaner, Foam, Restore, Reviver, Protect, Repel, Deodorant, Brush, Kits
    - Insoles Subcategories: Basic, Sport, Winter
    - Accessories Subcategories: Horns, Trees, Laces
    - Seasonal Picks: Winter, Autumn, Summer, Spring, Seasonal
    
    Include these tags in a separate `recommendedTags` array in your JSON response.
    ".

Definition affectedNoteBefore : jsstring :=
  litq " The affected part of the shoe is: `".

Definition affectedNoteAfter : jsstring :=
  litq "`.".

Definition imageUrlBefore : jsstring :=
  litq "data:image/jpeg;base64,".

Definition textQueryBefore : jsstring :=
  litq "Please analyze this shoe: ".

(** The property names that every object inherits from [Object.prototype]:
    reading one of them on [translations] yields a function or an object,
    not [undefined]. *)
Definition objectPrototypeNames : list jsstring :=
  [lit "constructor"; lit "__defineGetter__"; lit "__defineSetter__";
   lit "hasOwnProperty"; lit "__lookupGetter__"; lit "__lookupSetter__";
   lit "isPrototypeOf"; lit "propertyIsEnumerable"; lit "toString";
   lit "valueOf"; lit "__proto__"; lit "toLocaleString"].

(** The value of [translations[language]]. *)
Inductive TableValue : Type :=
| Entry (t : Translation)
| Inherited
| Undefined.

Definition translationsGet (language : jsstring) : TableValue :=
  if jsstring_eqb language (lit "en") then Entry translation_en
  else if jsstring_eqb language (lit "ru") then Entry translation_ru
  else if jsstring_eqb language (lit "lt") then Entry translation_lt
  else if array_includes objectPrototypeNames language then Inherited
  else Undefined.

(** [translations[language] || translations.en]: an inherited value is
    truthy and is kept; it is no entry of the table ([None]). *)
Definition selectTranslation (language : jsstring) : option Translation :=
  match translationsGet language with
  | Entry t => Some t
  | Inherited => None
  | Undefined => Some translation_en
  end.

Record Request : Type := mkRequest {
  base64Image : option jsstring;
  problemDescription : option jsstring;
  affectedPart : option jsstring;
  brand : option jsstring;
  language : option jsstring
}.

Inductive UserMessage : Type :=
| ImageUrl (url : jsstring)
| TextContent (content : jsstring).

(** What the analysis call sends: the system prompt and the user message. *)
Record ChatRequest : Type := mkChat {
  prompt : jsstring;
  user : UserMessage
}.

Inductive QualityReply : Type :=
| QualityCallFails
| QualityContent (content : option jsstring).

Inductive AnalysisReply : Type :=
| AnalysisFails
| AnalysisDetails (shoeDetails : ShoeDetails).

Inductive ServiceCall : Type :=
| QualityCall (image : jsstring)
| AnalysisCall (request : ChatRequest).

Inductive Body : Type :=
| ErrorBody (error message : jsstring)
| DetailsBody (shoeDetails : ShoeDetails) (recommendedProducts : list ProductSummary).

Record Response : Type := mkResponse {
  status : nat;
  body : Body
}.

Definition missingInput : Response :=
  mkResponse 400
    (ErrorBody (lit "missing_input")
               (lit "Please provide either an image or brand/model information")).

Definition processingError : Response :=
  mkResponse 500
    (ErrorBody (lit "processing_error") (lit "Error processing request")).

Definition imageQuality (message : jsstring) : Response :=
  mkResponse 200 (ErrorBody (lit "image_quality") message).

(** [const hasImage = !!base64Image] *)
Definition hasImage (req : Request) : bool := truthy (base64Image req).

(** [const hasBrandInfo = !!brand && brand.trim().length > 0] *)
Definition hasBrandInfo (req : Request) : bool :=
  truthy (brand req) && (0 <? List.length (trim (interpolate (brand req)))).

(** The prompt, for an entry of the table. *)
Definition buildPrompt (translation : Translation) (req : Request) : jsstring :=
  let prompt :=
    promptText0 ++ t_systemPrompt translation
    ++ promptText1
    ++ (if hasImage req then lit "shoe in the provided image"
        else lit "shoe based on the provided brand/model information")
    ++ promptText2 ++ t_brandAndModel translation
    ++ promptText3 ++ t_upper translation
    ++ promptText4 ++ t_lining translation
    ++ promptText5 ++ t_insole translation
    ++ promptText6 ++ t_outsole translation
    ++ promptText7 ++ t_laces translation
    ++ promptText8 ++ t_tongue translation
    ++ promptText9 ++ t_affectedPart translation
    ++ promptText10 ++ t_recommendation translation
    ++ promptText11 ++ t_generalCare translation
    ++ promptText12 ++ t_recommendedTag translation
    ++ promptText13
    ++ (if hasImage req then lit "shoe in the image"
        else lit "provided brand/model information")
    ++ promptText14 in
  let prompt :=
    if hasBrandInfo req then
      let prompt := prompt ++ brandNoteBefore ++ interpolate (brand req) ++ brandNoteAfter in
      if negb (hasImage req) then prompt ++ noImageNote else prompt
    else prompt in
  let prompt :=
    if truthy (problemDescription req) then
      prompt ++ problemNoteBefore ++ interpolate (problemDescription req)
      ++ problemNoteAfter ++ tagsRequest
    else prompt in
  if truthy (affectedPart req) then
    prompt ++ affectedNoteBefore ++ interpolate (affectedPart req) ++ affectedNoteAfter
  else prompt.

Section Handler.

Variable toLowerCase : jsstring -> jsstring.
Variable qualityService : jsstring -> QualityReply.
Variable analysisService : ChatRequest -> AnalysisReply.

(** [checkImageQuality]: [null] ([None]) when the image passes or when
    anything throws; otherwise the trimmed reply.  Trimming a missing content
    throws and is caught like a failed call. *)
Definition checkImageQuality (base64Image : jsstring) : option jsstring :=
  match qualityService base64Image with
  | QualityCallFails => None
  | QualityContent None => None
  | QualityContent (Some content) =>
      let result := trim content in
      if jsstring_eqb result (lit "PASS") then None else Some result
  end.

(** What the analysis call sends: the prompt, and the image or, without an
    image, the brand as a text query. *)
Definition analysisRequest (translation : Translation) (req : Request) : ChatRequest :=
  mkChat (buildPrompt translation req)
         (if hasImage req
          then ImageUrl (imageUrlBefore ++ interpolate (base64Image req))
          else TextContent (textQueryBefore ++ interpolate (brand req))).

(** The part of the handler from the analysis call on; [calls] are the
    calls made before. *)
Definition analyse (productsDatabase : list Row) (request : ChatRequest)
  (calls : list ServiceCall) : Response * list ServiceCall :=
  let calls := calls ++ [AnalysisCall request] in
  match analysisService request with
  | AnalysisFails => (processingError, calls)
  | AnalysisDetails shoeDetails =>
      match findRelevantProducts toLowerCase productsDatabase shoeDetails with
      | Throw _ => (processingError, calls)
      | Normal recommendedProducts =>
          (mkResponse 200 (DetailsBody shoeDetails recommendedProducts), calls)
      end
  end.

(** The handler once the request is accepted.  [productsDatabase] is the
    catalog at the time of the ranking.  With an inherited value for the
    translation, reading [translation.responseFormat.brandAndModel] while
    the prompt is built throws; every exception is answered by the [catch]
    block. *)
Definition answer (productsDatabase : list Row) (req : Request)
  : Response * list ServiceCall :=
  let language := match language req with
                  | Some l => l
                  | None => lit "en"
                  end in
  match selectTranslation language with
  | None => (processingError, [])
  | Some translation =>
      let request := analysisRequest translation req in
      let image := interpolate (base64Image req) in
      if hasImage req then
        let imageQualityIssue := checkImageQuality image in
        if truthy imageQualityIssue
        then (imageQuality (interpolate imageQualityIssue), [QualityCall image])
        else analyse productsDatabase request [QualityCall image]
      else analyse productsDatabase request []
  end.

(** The handler: the response and the calls made to the service. *)
Definition analyzeShoe (productsDatabase : list Row) (req : Request)
  : Response * list ServiceCall :=
  if negb (hasImage req) && negb (hasBrandInfo req) then (missingInput, [])
  else answer productsDatabase req.

End Handler.

End Endpoint.

(** Services and requests used to exercise the endpoint. *)
Definition passService : jsstring -> Endpoint.QualityReply :=
  fun _ => Endpoint.QualityContent (Some (lit " PASS ")).

Definition blurService : jsstring -> Endpoint.QualityReply :=
  fun _ => Endpoint.QualityContent (Some (lit " Too blurry. ")).

Definition describeService : Endpoint.ChatRequest -> Endpoint.AnalysisReply :=
  fun _ => Endpoint.AnalysisDetails Scenario.description.

Definition brokenReplyService : Endpoint.ChatRequest -> Endpoint.AnalysisReply :=
  fun _ => Endpoint.AnalysisDetails entryWithoutRecommendations.

Definition textRequest : Endpoint.Request :=
  Endpoint.mkRequest None None None (Some (lit "Nike Air")) None.

Definition imageRequest : Endpoint.Request :=
  Endpoint.mkRequest (Some (lit "QUJD")) None None None (Some (lit "lt")).


Definition constructorRequest : Endpoint.Request :=
  Endpoint.mkRequest None None None (Some (lit "Nike Air")) (Some (lit "constructor")).

Definition blankRequest : Endpoint.Request :=
  Endpoint.mkRequest (Some []) None None (Some (lit "  ")) None.

(** ** Lists, completions and the stable sort *)

Lemma jsstring_eqb_eq (a b : jsstring) : jsstring_eqb a b = true <-> a = b.
Proof.
  revert b; induction a as [|x a IH]; intros [|y b]; simpl; split; intro H;
    try reflexivity; try discriminate.
  - apply andb_true_iff in H as [Hx Hab].
    apply N.eqb_eq in Hx. apply IH in Hab. congruence.
  - injection H as -> ->. rewrite N.eqb_refl. simpl. apply IH. reflexivity.
Qed.

Lemma includes_empty (s : jsstring) : includes s [] = true.
Proof. destruct s; reflexivity. Qed.

Lemma forEach_total {A S} (g : S -> A -> S) (l : list A) (s : S) :
  forEach (fun s x => Normal (g s x)) l s = Normal (fold_left g l s).
Proof. revert s; induction l as [|x l IH]; intro s; simpl; auto. Qed.

Lemma fold_left_push {A B} (g : A -> list B) (l : list A) (acc : list B) :
  fold_left (fun kws x => kws ++ g x) l acc = acc ++ flat_map g l.
Proof.
  revert acc; induction l as [|x l IH]; intro acc; simpl.
  - now rewrite app_nil_r.
  - rewrite IH. now rewrite <- app_assoc.
Qed.

Lemma mapM_Forall2 {A B} (f : A -> completion B) (l : list A) (ys : list B) :
  mapM f l = Normal ys -> Forall2 (fun x y => f x = Normal y) l ys.
Proof.
  revert ys; induction l as [|x l IH]; simpl; intros ys H.
  - injection H as <-. constructor.
  - destruct (f x) as [y|e] eqn:Hy; simpl in H; [|discriminate].
    destruct (mapM f l) as [ys'|e] eqn:Hys; simpl in H; [|discriminate].
    injection H as <-. constructor; auto.
Qed.

Lemma mapM_total {A B} (f : A -> completion B) (g : A -> B) (l : list A) :
  Forall (fun x => f x = Normal (g x)) l -> mapM f l = Normal (map g l).
Proof.
  induction 1 as [|x l Hx _ IH]; simpl; [reflexivity|].
  now rewrite Hx, IH.
Qed.

Section StableSort.

Context {A : Type} (cmp : A -> A -> Z).

Lemma sort_insert_In (x : A) (l : list A) (z : A) :
  In z (sort_insert cmp x l) <-> z = x \/ In z l.
Proof.
  induction l as [|y l IH]; simpl.
  - intuition congruence.
  - destruct (0 <? cmp x y)%Z; simpl; rewrite ?IH; intuition congruence.
Qed.

Lemma sort_In (l : list A) (z : A) : In z (sort cmp l) <-> In z l.
Proof.
  induction l as [|x l IH]; simpl; [tauto|].
  rewrite sort_insert_In, IH. intuition congruence.
Qed.

Lemma sort_insert_length (x : A) (l : list A) :
  List.length (sort_insert cmp x l) = S (List.length l).
Proof.
  induction l as [|y l IH]; simpl; [reflexivity|].
  destruct (0 <? cmp x y)%Z; simpl; auto.
Qed.

Lemma sort_length (l : list A) : List.length (sort cmp l) = List.length l.
Proof.
  induction l as [|x l IH]; simpl; [reflexivity|].
  now rewrite sort_insert_length, IH.
Qed.

Lemma sort_insert_Permutation (x : A) (l : list A) :
  Permutation (x :: l) (sort_insert cmp x l).
Proof.
  induction l as [|y l IH]; simpl; [apply Permutation_refl|].
  destruct (0 <? cmp x y)%Z; [|apply Permutation_refl].
  eapply Permutation_trans; [apply perm_swap|]. now apply perm_skip.
Qed.

(** The sort rearranges its input: nothing is lost or duplicated. *)
Lemma sort_Permutation (l : list A) : Permutation l (sort cmp l).
Proof.
  induction l as [|x l IH]; simpl; [constructor|].
  eapply Permutation_trans; [apply perm_skip, IH | apply sort_insert_Permutation].
Qed.

(** Sorting commutes with a projection that the comparator factors through. *)
Lemma sort_insert_map {B} (f : B -> A) (x : B) (l : list B) :
  sort_insert cmp (f x) (map f l)
  = map f (sort_insert (fun a b => cmp (f a) (f b)) x l).
Proof.
  induction l as [|y l IH]; simpl; [reflexivity|].
  destruct (0 <? cmp (f x) (f y))%Z; simpl; [now rewrite IH | reflexivity].
Qed.

Lemma sort_map {B} (f : B -> A) (l : list B) :
  sort cmp (map f l) = map f (sort (fun a b => cmp (f a) (f b)) l).
Proof.
  induction l as [|x l IH]; simpl; [reflexivity|].
  now rewrite IH, sort_insert_map.
Qed.

End StableSort.

Lemma filter_map_comm {A B} (f : B -> A) (p : A -> bool) (l : list B) :
  filter p (map f l) = map f (filter (fun b => p (f b)) l).
Proof.
  induction l as [|x l IH]; simpl; [reflexivity|].
  destruct (p (f x)); simpl; now rewrite IH.
Qed.

Lemma StronglySorted_firstn {A} (R : A -> A -> Prop) (k : nat) (l : list A) :
  StronglySorted R l -> StronglySorted R (firstn k l).
Proof.
  revert l; induction k as [|k IH]; intros l H; simpl; [constructor|].
  destruct l as [|x l]; [constructor|].
  apply StronglySorted_inv in H as [Hl Hx].
  constructor; [now apply IH|].
  rewrite Forall_forall in *. intros z Hz. apply Hx.
  revert Hz. clear. revert l. induction k as [|k IH]; intros [|y l]; simpl; try tauto.
  intros [->|H]; [now left | right; now apply IH].
Qed.

Lemma In_firstn {A} (k : nat) (l : list A) (z : A) : In z (firstn k l) -> In z l.
Proof.
  revert l; induction k as [|k IH]; intros [|y l]; simpl; try tauto.
  intros [->|H]; [now left | right; now apply IH].
Qed.

Lemma StronglySorted_nth {A} (R : A -> A -> Prop) (l : list A) (d : A) (a b : nat) :
  StronglySorted R l -> a < b < List.length l -> R (nth a l d) (nth b l d).
Proof.
  intros H; revert a b; induction H as [|x l Hl IH Hx]; intros a b [Hab Hb];
    simpl in *; [lia|].
  destruct a as [|a]; destruct b as [|b]; try lia.
  - rewrite Forall_forall in Hx. apply Hx. apply nth_In. lia.
  - apply IH. lia.
Qed.

Lemma StronglySorted_map {A B} (R : B -> B -> Prop) (f : A -> B) (l : list A) :
  StronglySorted (fun a b => R (f a) (f b)) l -> StronglySorted R (map f l).
Proof.
  induction 1 as [|x l Hl IH Hx]; simpl; constructor; auto.
  rewrite Forall_forall in *. intros z Hz.
  apply in_map_iff in Hz as [y [<- Hy]]. auto.
Qed.

Lemma StronglySorted_irrefl_NoDup {A} (R : A -> A -> Prop) (l : list A) :
  (forall x, In x l -> ~ R x x) -> StronglySorted R l -> NoDup l.
Proof.
  intros Hirr H; induction H as [|x l Hl IH Hx]; constructor.
  - intro Hin. rewrite Forall_forall in Hx.
    apply (Hirr x); [now left | now apply Hx].
  - apply IH. intros y Hy. apply Hirr. now right.
Qed.

(** ** The ranking on tagged lists *)

Lemma In_combine_seq {A} (l : list A) (s i : nat) (x d : A) :
  In (i, x) (combine (seq s (List.length l)) l) ->
  s <= i < s + List.length l /\ nth (i - s) l d = x.
Proof.
  revert s; induction l as [|y l IH]; intros s; simpl; [tauto|].
  intros [H|H].
  - injection H as <- <-. split; [lia|]. now rewrite Nat.sub_diag.
  - apply IH in H as [Hb Hn]. split; [lia|].
    replace (i - s) with (S (i - S s)) by lia. exact Hn.
Qed.

Lemma In_tag {A} (l : list A) (i : nat) (x d : A) :
  In (i, x) (tag l) -> i < List.length l /\ nth i l d = x.
Proof.
  intro H. apply (In_combine_seq l 0 i x d) in H as [Hb Hn].
  rewrite Nat.sub_0_r in Hn. split; [lia | exact Hn].
Qed.

Lemma map_snd_combine_seq {A} (l : list A) (s : nat) :
  map snd (combine (seq s (List.length l)) l) = l.
Proof.
  revert s; induction l as [|y l IH]; intro s; simpl; [reflexivity|].
  now rewrite IH.
Qed.

Lemma combine_seq_map {A B} (f : A -> B) (l : list A) (s : nat) :
  combine (seq s (List.length (map f l))) (map f l)
  = map (fun a => (fst a, f (snd a))) (combine (seq s (List.length l)) l).
Proof.
  revert s; induction l as [|y l IH]; intro s; simpl; [reflexivity|].
  now rewrite IH.
Qed.

Lemma tag_increasing {A} (l : list A) :
  StronglySorted (fun a b : nat * A => fst a < fst b) (tag l).
Proof.
  unfold tag. generalize 0 as s.
  induction l as [|y l IH]; intro s; simpl; constructor; [apply IH|].
  rewrite Forall_forall. intros [i x] H.
  apply (In_combine_seq l (S s) i x y) in H. simpl. lia.
Qed.

Lemma StronglySorted_filter_keep {A} (R : A -> A -> Prop) (p : A -> bool) (l : list A) :
  StronglySorted R l -> StronglySorted R (filter p l).
Proof.
  induction 1 as [|x l Hl IH Hx]; simpl; [constructor|].
  destruct (p x); [|exact IH].
  constructor; [exact IH|].
  rewrite Forall_forall in *. intros z Hz. apply filter_In in Hz as [Hz _]. auto.
Qed.

Lemma StronglySorted_weaken_In {A} (R R' : A -> A -> Prop) (l : list A) :
  (forall a b, In a l -> In b l -> R a b -> R' a b) ->
  StronglySorted R l -> StronglySorted R' l.
Proof.
  intros Himp H; induction H as [|x l Hl IH Hx]; constructor.
  - apply IH. intros a b Ha Hb. apply Himp; now right.
  - rewrite Forall_forall in *. intros z Hz.
    apply Himp; [now left | now right | now apply Hx].
Qed.

Lemma sort_insert_pairs (x : nat * Z) (l : list (nat * Z)) :
  StronglySorted pairBefore l ->
  Forall (fun y => fst x < fst y) l ->
  StronglySorted pairBefore (sort_insert pairCmp x l).
Proof.
  intros Hs; induction Hs as [|y l Hl IH Hy]; intros Hx; simpl.
  - repeat constructor.
  - apply Forall_cons_iff in Hx as [Hxy Hxl].
    unfold pairCmp at 1. destruct (0 <? snd y - snd x)%Z eqn:Hc.
    + apply Z.ltb_lt in Hc. constructor; [now apply IH|].
      rewrite Forall_forall in *. intros z Hz.
      apply sort_insert_In in Hz as [->|Hz]; [left; lia | now apply Hy].
    + apply Z.ltb_ge in Hc. constructor; [now constructor|].
      constructor.
      * unfold pairBefore. lia.
      * rewrite Forall_forall in *. intros z Hz.
        specialize (Hy z Hz). specialize (Hxl z Hz).
        unfold pairBefore in *. lia.
Qed.

Lemma sort_pairs (l : list (nat * Z)) :
  StronglySorted (fun a b : nat * Z => fst a < fst b) l ->
  StronglySorted pairBefore (sort pairCmp l).
Proof.
  induction 1 as [|x l Hl IH Hx]; simpl; [constructor|].
  apply sort_insert_pairs; [exact IH|].
  rewrite Forall_forall in *. intros z Hz. apply sort_In in Hz. auto.
Qed.

Lemma rankedPositions_pairs (scores : list Z) :
  rankedPositions scores = map fst (rankedPairs scores).
Proof. reflexivity. Qed.

Lemma rankedPairs_In (scores : list Z) (i : nat) (s : Z) :
  In (i, s) (rankedPairs scores) ->
  i < List.length scores /\ nth i scores 0%Z = s /\ (0 < s)%Z.
Proof.
  intro H. apply In_firstn in H. apply sort_In in H.
  apply filter_In in H as [H Hpos]. simpl in Hpos. apply Z.ltb_lt in Hpos.
  apply (In_tag scores i s 0%Z) in H as [Hb Hn]. auto.
Qed.

Lemma rankedPairs_sorted (scores : list Z) :
  StronglySorted pairBefore (rankedPairs scores).
Proof.
  apply StronglySorted_firstn, sort_pairs, StronglySorted_filter_keep, tag_increasing.
Qed.

Lemma rankedPositions_sorted (scores : list Z) :
  StronglySorted (ranksBefore scores) (rankedPositions scores).
Proof.
  rewrite rankedPositions_pairs. apply StronglySorted_map.
  apply (StronglySorted_weaken_In pairBefore); [|apply rankedPairs_sorted].
  intros [i s] [j t] Ha Hb HR.
  apply rankedPairs_In in Ha as (_ & Hi & _).
  apply rankedPairs_In in Hb as (_ & Hj & _).
  unfold pairBefore in HR; unfold ranksBefore; simpl in *. now rewrite Hi, Hj.
Qed.

Lemma rankedPositions_In (scores : list Z) (i : nat) :
  In i (rankedPositions scores) ->
  i < List.length scores /\ (0 < nth i scores 0)%Z.
Proof.
  rewrite rankedPositions_pairs. intro H.
  apply in_map_iff in H as [[j s] [<- H]].
  apply rankedPairs_In in H as (Hb & Hn & Hp). simpl. now rewrite Hn.
Qed.

Lemma rankedPositions_NoDup (scores : list Z) : NoDup (rankedPositions scores).
Proof.
  apply (StronglySorted_irrefl_NoDup (ranksBefore scores));
    [|apply rankedPositions_sorted].
  intros i _ [H|[_ H]]; lia.
Qed.

Lemma rankedPositions_length (scores : list Z) :
  List.length (rankedPositions scores) <= TOP_K.
Proof.
  rewrite rankedPositions_pairs, length_map. unfold rankedPairs, slice0.
  rewrite length_firstn. apply Nat.le_min_l.
Qed.

(** The selection of the source, read through positions. *)
Lemma topMatches_positions (scored : list ScoredMatch) (d : ScoredMatch) :
  topMatches scored
  = map (fun i => nth i scored d) (rankedPositions (map score scored)).
Proof.
  set (R := slice0 TOP_K
              (sort (fun a b : nat * ScoredMatch => byScoreDesc (snd a) (snd b))
                    (filter (fun a : nat * ScoredMatch => hasMatches (snd a))
                            (tag scored)))).
  assert (Htop : topMatches scored = map snd R).
  { unfold topMatches, R, slice0.
    rewrite <- (map_snd_combine_seq scored 0) at 1. fold (tag scored).
    rewrite filter_map_comm, sort_map. apply firstn_map. }
  assert (Hpos : rankedPositions (map score scored) = map fst R).
  { unfold rankedPositions, R, slice0, tag.
    rewrite combine_seq_map.
    rewrite (filter_map_comm (fun a : nat * ScoredMatch => (fst a, score (snd a)))).
    rewrite (sort_map _ (fun a : nat * ScoredMatch => (fst a, score (snd a)))).
    rewrite firstn_map, map_map. reflexivity. }
  rewrite Htop, Hpos, map_map. apply map_ext_in.
  intros [i it] Hin. simpl.
  apply In_firstn in Hin. apply sort_In in Hin. apply filter_In in Hin as [Hin _].
  apply (In_tag scored i it d) in Hin as [_ Hn]. now rewrite Hn.
Qed.

(** ** Scoring *)

Section ScoringFacts.

Variable toLowerCase : jsstring -> jsstring.

Lemma includes_nil_l (kw : jsstring) : includes [] kw = true -> kw = [].
Proof. destruct kw; simpl; [reflexivity | discriminate]. Qed.

Lemma scoreStep_full (h vp img : option jsstring) (t b g v : jsstring)
      (acc : Z) (kw : jsstring) :
  toLowerCase [] = [] ->
  let p := mkRow h (Some t) (Some b) (Some g) (Some v) vp img in
  scoreStep toLowerCase p (productText toLowerCase p) acc kw
  = Normal (acc + contribution toLowerCase t b g v kw)%Z.
Proof.
  intros Hnil p. unfold scoreStep, contribution, productText. simpl.
  destruct (includes (toLowerCase (t ++ SPACE :: b ++ SPACE :: g ++ SPACE :: v)) kw);
    [|now rewrite Z.add_0_r].
  destruct (includes (toLowerCase t) kw) eqn:Ht; [reflexivity|].
  destruct g as [|c g]; simpl.
  - rewrite Hnil.
    destruct (includes [] kw) eqn:Hg; [|reflexivity].
    apply includes_nil_l in Hg. subst kw.
    rewrite includes_empty in Ht. discriminate.
  - destruct (includes (toLowerCase (c :: g)) kw); reflexivity.
Qed.

Lemma forEach_scoreStep_full (h vp img : option jsstring) (t b g v : jsstring)
      (kws : list jsstring) (acc : Z) :
  toLowerCase [] = [] ->
  let p := mkRow h (Some t) (Some b) (Some g) (Some v) vp img in
  forEach (scoreStep toLowerCase p (productText toLowerCase p)) kws acc
  = Normal (acc + sumZ (map (contribution toLowerCase t b g v) kws))%Z.
Proof.
  intros Hnil p. revert acc.
  induction kws as [|kw kws IH]; intro acc; simpl.
  - now rewrite Z.add_0_r.
  - unfold p. rewrite scoreStep_full by exact Hnil. simpl.
    fold p. rewrite IH. f_equal. lia.
Qed.

(** With a title the scoring loop cannot throw, and the accumulator never
    decreases. *)
Lemma scoreStep_titled (p : Row) (t text : jsstring) (acc : Z) (kw : jsstring) :
  Title p = Some t ->
  exists s, scoreStep toLowerCase p text acc kw = Normal s /\ (acc <= s <= acc + 3)%Z.
Proof.
  intro Ht. unfold scoreStep. rewrite Ht.
  destruct (includes text kw); [|exists acc; split; [reflexivity | lia]].
  destruct (includes (toLowerCase t) kw); [eexists; split; [reflexivity | lia]|].
  match goal with |- context [if ?c then _ else _] => destruct c end;
    eexists; (split; [reflexivity | lia]).
Qed.

Lemma forEach_scoreStep_titled (p : Row) (t text : jsstring)
      (kws : list jsstring) (acc : Z) :
  Title p = Some t ->
  exists s, forEach (scoreStep toLowerCase p text) kws acc = Normal s /\ (acc <= s)%Z.
Proof.
  intro Ht. revert acc. induction kws as [|kw kws IH]; intro acc; simpl.
  - exists acc. split; [reflexivity | lia].
  - destruct (scoreStep_titled p t text acc kw Ht) as (s1 & -> & Hs1). simpl.
    destruct (IH s1) as (s & -> & Hs). exists s. split; [reflexivity | lia].
Qed.

Lemma forEach_scoreStep_empty_keyword (p : Row) (t : jsstring)
      (kws : list jsstring) (acc : Z) :
  Title p = Some t -> In [] kws ->
  exists s, forEach (scoreStep toLowerCase p (productText toLowerCase p)) kws acc
            = Normal s /\ (acc + 3 <= s)%Z.
Proof.
  intros Ht. revert acc. induction kws as [|kw kws IH]; intros acc Hin;
    simpl in *; [tauto|].
  destruct Hin as [->|Hin].
  - unfold scoreStep at 1. rewrite Ht, !includes_empty. simpl.
    destruct (forEach_scoreStep_titled p t (productText toLowerCase p) kws (acc + 3) Ht)
      as (s & -> & Hs).
    exists s. split; [reflexivity | lia].
  - destruct (scoreStep_titled p t (productText toLowerCase p) acc kw Ht)
      as (s1 & -> & Hs1). simpl.
    destruct (IH s1 Hin) as (s & -> & Hs). exists s. split; [reflexivity | lia].
Qed.

Lemma scoreProduct_product (kws : list jsstring) (p : Row) (item : ScoredMatch) :
  scoreProduct toLowerCase kws p = Normal item ->
  item = mkScored p (scoreOf toLowerCase kws p).
Proof.
  intro H. unfold scoreOf. rewrite H.
  unfold scoreProduct in H.
  destruct (forEach _ kws 0%Z) as [s|e]; simpl in H; [|discriminate].
  injection H as <-. reflexivity.
Qed.

Lemma scoreProduct_no_keywords (p : Row) :
  scoreProduct toLowerCase [] p = Normal (mkScored p 0).
Proof. reflexivity. Qed.

Lemma scored_rows (kws : list jsstring) (db : list Row) (scored : list ScoredMatch) :
  mapM (scoreProduct toLowerCase kws) db = Normal scored ->
  scored = map (fun p => mkScored p (scoreOf toLowerCase kws p)) db.
Proof.
  intro H. apply mapM_Forall2 in H.
  induction H as [|p item db scored Hp _ IH]; simpl; [reflexivity|].
  apply scoreProduct_product in Hp. now rewrite Hp, IH.
Qed.

(** *** The result through catalog positions *)

Lemma findRelevantProducts_unfold (db : list Row) (sd : ShoeDetails)
      (res : list ProductSummary) :
  db <> [] ->
  findRelevantProducts toLowerCase db sd = Normal res ->
  exists kws scored,
    extractKeywords toLowerCase sd = Normal kws /\
    mapM (scoreProduct toLowerCase kws) db = Normal scored /\
    res = map toSummary (topMatches scored).
Proof.
  intros Hne H. unfold findRelevantProducts in H.
  destruct db as [|p db]; [congruence|].
  change (Nat.eqb (List.length (p :: db)) 0) with false in H. cbv iota in H.
  destruct (extractKeywords toLowerCase sd) as [kws|e]; unfold bind at 1 in H;
    [|discriminate].
  destruct (mapM (scoreProduct toLowerCase kws) (p :: db)) as [scored|e] eqn:Hs;
    unfold bind in H; [|discriminate].
  injection H as <-. exists kws, scored. auto.
Qed.

Lemma selected_summaries (kws : list jsstring) (db : list Row) :
  map toSummary
      (topMatches (map (fun p => mkScored p (scoreOf toLowerCase kws p)) db))
  = map (fun i => summaryOfRow (nth i db emptyRow))
        (rankedPositions (map (scoreOf toLowerCase kws) db)).
Proof.
  rewrite (topMatches_positions _ (mkScored emptyRow (scoreOf toLowerCase kws emptyRow))).
  rewrite !map_map. apply map_ext. intro i.
  rewrite (map_nth (fun p => mkScored p (scoreOf toLowerCase kws p))).
  reflexivity.
Qed.

Lemma findRelevantProducts_positions (db : list Row) (sd : ShoeDetails)
      (kws : list jsstring) (res : list ProductSummary) :
  extractKeywords toLowerCase sd = Normal kws ->
  findRelevantProducts toLowerCase db sd = Normal res ->
  res = map (fun i => summaryOfRow (nth i db emptyRow))
            (rankedPositions (map (scoreOf toLowerCase kws) db)).
Proof.
  intros Hk H. destruct db as [|p db].
  - unfold findRelevantProducts in H. simpl in H. injection H as <-. reflexivity.
  - apply findRelevantProducts_unfold in H as (kws' & scored & Hk' & Hs & ->);
      [|discriminate].
    rewrite Hk in Hk'. injection Hk' as <-.
    apply scored_rows in Hs. rewrite Hs. apply selected_summaries.
Qed.

Lemma nth_scoreOf (kws : list jsstring) (db : list Row) (i : nat) :
  i < List.length db ->
  nth i (map (scoreOf toLowerCase kws) db) 0%Z
  = scoreOf toLowerCase kws (nth i db emptyRow).
Proof.
  intro Hi.
  rewrite (nth_indep _ 0%Z (scoreOf toLowerCase kws emptyRow))
    by now rewrite length_map.
  apply map_nth.
Qed.

End ScoringFacts.

(** ** Keyword extraction *)

Section ExtractionFacts.

Variable toLowerCase : jsstring -> jsstring.

Lemma array_includes_stopwords (w : jsstring) :
  array_includes stopwords w = inStopwordSet w.
Proof.
  unfold array_includes, inStopwordSet.
  destruct (in_dec (list_eq_dec N.eq_dec) w stopwords) as [Hin|Hout].
  - apply existsb_exists. exists w. split; [exact Hin | now apply jsstring_eqb_eq].
  - apply not_true_is_false. intro H. apply existsb_exists in H as [x [Hx Heq]].
    apply jsstring_eqb_eq in Heq. subst x. contradiction.
Qed.

Lemma keepWord_described (w : jsstring) :
  keepWord w = (3 <? List.length w) && negb (inStopwordSet w).
Proof. unfold keepWord. now rewrite array_includes_stopwords. Qed.

Lemma materialStep_push (kws : list jsstring) (v : option jsstring) :
  materialStep toLowerCase kws v
  = kws ++ filter (fun m => negb (isSentinel m)) (map toLowerCase (present v)).
Proof.
  unfold materialStep, isSentinel.
  destruct v as [[|c m]|]; simpl; try now rewrite app_nil_r.
  rewrite negb_orb.
  destruct (negb (jsstring_eqb (toLowerCase (c :: m)) (lit "unknown"))); simpl;
    [|now rewrite app_nil_r].
  destruct (negb (jsstring_eqb (toLowerCase (c :: m)) (lit "unspecified"))); simpl;
    [reflexivity | now rewrite app_nil_r].
Qed.

Lemma fold_materialStep (ms : list (jsstring * option jsstring)) (kws : list jsstring) :
  fold_left (materialStep toLowerCase) (map snd ms) kws
  = kws ++ filter (fun m => negb (isSentinel m))
                  (map toLowerCase (flat_map (fun kv => present (snd kv)) ms)).
Proof.
  revert kws; induction ms as [|kv ms IH]; intro kws; simpl.
  - now rewrite app_nil_r.
  - rewrite IH, materialStep_push, map_app, filter_app. now rewrite <- app_assoc.
Qed.

Lemma fold_recommendationStep (rs : list jsstring) (kws : list jsstring) :
  fold_left (recommendationStep toLowerCase) rs kws
  = kws ++ flat_map (fun r => filter (fun w => (3 <? List.length w)
                                               && negb (inStopwordSet w))
                                     (split_space (toLowerCase r))) rs.
Proof.
  unfold recommendationStep.
  rewrite (fold_left_push (fun r => filter keepWord (split_space (toLowerCase r)))).
  f_equal. apply flat_map_ext. intro r. apply filter_ext. exact keepWord_described.
Qed.

Lemma affectedPart_push (kws : list jsstring) (rec : CleaningRecommendation) :
  match affectedPart rec with
  | Some part => if truthy (affectedPart rec)
                 then kws ++ [toLowerCase part] else kws
  | None => kws
  end = kws ++ map toLowerCase (present (affectedPart rec)).
Proof.
  destruct (affectedPart rec) as [[|c s]|]; simpl; auto using app_nil_r.
Qed.

Lemma forEach_cleaningStep (recs : list CleaningRecommendation) (kws : list jsstring) :
  Forall (fun rec => recommendations rec <> None) recs ->
  forEach (cleaningStep toLowerCase) recs kws
  = Normal
      (kws ++ flat_map
         (fun rec =>
            map toLowerCase (present (affectedPart rec))
            ++ flat_map
                 (fun r => filter (fun w => (3 <? List.length w)
                                            && negb (inStopwordSet w))
                                  (split_space (toLowerCase r)))
                 (match recommendations rec with Some rs => rs | None => [] end))
         recs).
Proof.
  intro H. revert kws. induction H as [|rec recs Hrec _ IH]; intro kws; simpl.
  - now rewrite app_nil_r.
  - unfold cleaningStep at 1. rewrite affectedPart_push.
    destruct (recommendations rec) as [rs|]; [|congruence]. simpl.
    rewrite IH, fold_recommendationStep. now rewrite <- !app_assoc.
Qed.

Lemma extractKeywords_described (sd : ShoeDetails) :
  recommendationsPresent sd ->
  extractKeywords toLowerCase sd
  = Normal (describedKeywords toLowerCase split_space sd).
Proof.
  destruct sd as [bm ms recs tags]. unfold recommendationsPresent, extractKeywords,
    describedKeywords. simpl. intro Hrecs.
  set (k1 := match bm with
             | Some bm0 => if truthy bm then split_space (toLowerCase bm0) else []
             | None => []
             end).
  assert (Hk1 : k1 = flat_map (fun bm0 => split_space (toLowerCase bm0)) (present bm)).
  { unfold k1. destruct bm as [[|c s]|]; simpl; auto using app_nil_r. }
  rewrite <- Hk1. clear Hk1. generalize k1 as acc. clear k1. intro acc.
  assert (Hm : match ms with
               | Some ms0 => fold_left (materialStep toLowerCase) (map snd ms0) acc
               | None => acc
               end
               = acc ++ match ms with
                        | Some ms0 =>
                            filter (fun m => negb (isSentinel m))
                              (map toLowerCase
                                   (flat_map (fun kv => present (snd kv)) ms0))
                        | None => []
                        end).
  { destruct ms; [apply fold_materialStep | now rewrite app_nil_r]. }
  rewrite Hm. clear Hm.
  destruct recs as [recs|]; simpl.
  - rewrite forEach_cleaningStep by exact Hrecs. simpl.
    destruct tags; simpl; rewrite ?app_nil_r, <- ?app_assoc; reflexivity.
  - destruct tags; simpl; rewrite ?app_nil_r, <- ?app_assoc; reflexivity.
Qed.

Lemma findRelevantProducts_returns (db : list Row) (sd : ShoeDetails) :
  titled db -> recommendationsPresent sd ->
  exists res, findRelevantProducts toLowerCase db sd = Normal res.
Proof.
  intros Hdb Hsd. unfold findRelevantProducts.
  destruct (Nat.eqb (List.length db) 0); [eexists; reflexivity|].
  rewrite extractKeywords_described by exact Hsd. simpl.
  set (kws := describedKeywords toLowerCase split_space sd).
  rewrite (mapM_total _ (fun p => mkScored p (scoreOf toLowerCase kws p))).
  - eexists; reflexivity.
  - eapply Forall_impl; [|exact Hdb]. intros p Hp. simpl in Hp.
    destruct (Title p) as [t|] eqn:Ht; [|congruence].
    unfold scoreOf, scoreProduct.
    destruct (forEach_scoreStep_titled toLowerCase p t (productText toLowerCase p) kws 0 Ht)
      as (s & -> & _).
    reflexivity.
Qed.

End ExtractionFacts.

Lemma In_combine_seq_intro {A} (l : list A) (s i : nat) (d : A) :
  i < List.length l -> In (s + i, nth i l d) (combine (seq s (List.length l)) l).
Proof.
  revert s i; induction l as [|y l IH]; intros s i Hi; simpl in *; [lia|].
  destruct i as [|i].
  - left. now rewrite Nat.add_0_r.
  - right. replace (s + S i) with (S s + i) by lia. apply IH. lia.
Qed.

Lemma In_tag_intro {A} (l : list A) (i : nat) (d : A) :
  i < List.length l -> In (i, nth i l d) (tag l).
Proof. intro Hi. apply (In_combine_seq_intro l 0 i d Hi). Qed.

(** *** The ranking before truncation *)

Lemma rankedPositions_prefix (scores : list Z) :
  rankedPositions scores = firstn TOP_K (rankedAll scores).
Proof. unfold rankedPositions, rankedAll, slice0. symmetry. apply firstn_map. Qed.

Lemma sortedPairs_In (scores : list Z) (i : nat) (s : Z) :
  In (i, s) (sort pairCmp (filter (fun a : nat * Z => (0 <? snd a)%Z) (tag scores)))
  <-> i < List.length scores /\ nth i scores 0%Z = s /\ (0 < s)%Z.
Proof.
  rewrite sort_In, filter_In. simpl. rewrite Z.ltb_lt. split.
  - intros [H Hpos]. apply (In_tag scores i s 0%Z) in H as [Hb Hn]. auto.
  - intros (Hb & Hn & Hpos). split; [|exact Hpos].
    rewrite <- Hn. now apply In_tag_intro.
Qed.

Lemma rankedAll_In (scores : list Z) (i : nat) :
  In i (rankedAll scores)
  <-> i < List.length scores /\ (0 < nth i scores 0)%Z.
Proof.
  unfold rankedAll. rewrite in_map_iff. split.
  - intros [[j s] [Hfst H]]. simpl in Hfst. subst j.
    apply sortedPairs_In in H as (Hb & Hn & Hpos). now rewrite Hn.
  - intros [Hb Hpos]. exists (i, nth i scores 0%Z). split; [reflexivity|].
    apply sortedPairs_In. auto.
Qed.

Lemma rankedAll_sorted (scores : list Z) :
  StronglySorted (ranksBefore scores) (rankedAll scores).
Proof.
  unfold rankedAll. apply StronglySorted_map.
  apply (StronglySorted_weaken_In pairBefore).
  - intros [i s] [j t] Ha Hb HR.
    apply sortedPairs_In in Ha as (_ & Hi & _).
    apply sortedPairs_In in Hb as (_ & Hj & _).
    unfold pairBefore in HR; unfold ranksBefore; simpl in *. now rewrite Hi, Hj.
  - apply sort_pairs, StronglySorted_filter_keep, tag_increasing.
Qed.

Lemma rankedAll_NoDup (scores : list Z) : NoDup (rankedAll scores).
Proof.
  apply (StronglySorted_irrefl_NoDup (ranksBefore scores));
    [|apply rankedAll_sorted].
  intros i _ [H|[_ H]]; lia.
Qed.

Lemma sumZ_app (l1 l2 : list Z) : sumZ (l1 ++ l2) = (sumZ l1 + sumZ l2)%Z.
Proof. induction l1 as [|x l1 IH]; simpl; [reflexivity | rewrite IH; lia]. Qed.

Lemma sumZ_cons (x : Z) (l : list Z) : sumZ (x :: l) = (x + sumZ l)%Z.
Proof. reflexivity. Qed.

Section Claims.

Variable toLowerCase : jsstring -> jsstring.

(** C1. For a product record with title, body, tags and vendor, the score
    of a keyword sequence is the sum over its occurrences of the
    per-occurrence contribution (0 when the lower-cased joined text does not
    contain the keyword, else 3 for the title, else 2 for the tags, else 1);
    a keyword that occurs twice is counted twice. *)
Theorem score_is_sum_of_contributions
  (kws : list jsstring) (h vp img : option jsstring) (t b g v : jsstring) :
  toLowerCase [] = [] ->
  let p := mkRow h (Some t) (Some b) (Some g) (Some v) vp img in
  let c := contribution toLowerCase t b g v in
  scoreProduct toLowerCase kws p = Normal (mkScored p (sumZ (map c kws)))
  /\ (forall k l1 l2 l3,
        kws = l1 ++ k :: l2 ++ k :: l3 ->
        sumZ (map c kws) = (2 * c k + sumZ (map c (l1 ++ l2 ++ l3)))%Z).
Proof.
  intros Hnil p c. split.
  - unfold scoreProduct.
    unfold p. rewrite (forEach_scoreStep_full toLowerCase) by exact Hnil.
    reflexivity.
  - intros k l1 l2 l3 ->. generalize c as f. intro f.
    rewrite map_app, sumZ_app, map_cons, sumZ_cons.
    rewrite map_app, sumZ_app, map_cons, sumZ_cons.
    rewrite !map_app, !sumZ_app. lia.
Qed.

(** C2 (amended). When every cleaning entry carries its recommendations,
    keyword extraction returns exactly the described concatenation, where a
    string is split at each single space character (U+0020): brand tokens,
    non-empty non-sentinel materials, affected parts with the filtered
    recommendation words, recommended tags; nothing is deduplicated. *)
Theorem keywords_split_at_spaces (sd : ShoeDetails) :
  recommendationsPresent sd ->
  extractKeywords toLowerCase sd
  = Normal (describedKeywords toLowerCase split_space sd).
Proof. apply extractKeywords_described. Qed.

(** C4. The result lists catalog positions in descending order of score,
    and of two returned products with equal score the one earlier in the
    catalog comes first. *)
Theorem ranking_descending_stable
  (db : list Row) (sd : ShoeDetails) (kws : list jsstring) (res : list ProductSummary) :
  extractKeywords toLowerCase sd = Normal kws ->
  findRelevantProducts toLowerCase db sd = Normal res ->
  exists idx : list nat,
    res = map (fun i => summaryOfRow (nth i db emptyRow)) idx /\
    Forall (fun i => i < List.length db) idx /\
    forall a b, a < b < List.length idx ->
      let i := nth a idx 0 in
      let j := nth b idx 0 in
      (scoreOf toLowerCase kws (nth j db emptyRow)
       <= scoreOf toLowerCase kws (nth i db emptyRow))%Z /\
      (scoreOf toLowerCase kws (nth i db emptyRow)
       = scoreOf toLowerCase kws (nth j db emptyRow) -> i < j).
Proof.
  intros Hk H.
  exists (rankedPositions (map (scoreOf toLowerCase kws) db)).
  assert (Hb : Forall (fun i => i < List.length db)
                 (rankedPositions (map (scoreOf toLowerCase kws) db))).
  { rewrite Forall_forall. intros i Hi.
    apply rankedPositions_In in Hi as [Hi _]. now rewrite length_map in Hi. }
  split; [now apply (findRelevantProducts_positions toLowerCase db sd kws)|].
  split; [exact Hb|].
  intros a b Hab i j.
  pose proof (StronglySorted_nth _ _ 0 a b
                (rankedPositions_sorted (map (scoreOf toLowerCase kws) db)) Hab) as HR.
  fold i j in HR. rewrite Forall_forall in Hb.
  assert (Hi : i < List.length db) by (apply Hb, nth_In; lia).
  assert (Hj : j < List.length db) by (apply Hb, nth_In; lia).
  unfold ranksBefore in HR. rewrite !nth_scoreOf in HR by assumption.
  split; [lia|]. intro Heq. lia.
Qed.

(** C5. The result is the first six entries of the filtered and sorted
    scored list, so it never has more than six entries.  The filtered and
    sorted list is given by what it is, not by how it is computed: it
    consists of exactly the catalog positions whose score is positive, each
    once, in descending order of score and, at equal score, in catalog
    order; the result is the summaries of its first six positions. *)
Theorem result_is_first_six
  (db : list Row) (sd : ShoeDetails) (res : list ProductSummary) :
  findRelevantProducts toLowerCase db sd = Normal res ->
  TOP_K = 6 /\
  List.length res <= 6 /\
  (forall kws,
      extractKeywords toLowerCase sd = Normal kws ->
      exists ranked : list nat,
        (forall i, In i ranked <->
                   i < List.length db /\
                   (0 < scoreOf toLowerCase kws (nth i db emptyRow))%Z) /\
        NoDup ranked /\
        (forall a b, a < b < List.length ranked ->
           let i := nth a ranked 0 in
           let j := nth b ranked 0 in
           (scoreOf toLowerCase kws (nth j db emptyRow)
            <= scoreOf toLowerCase kws (nth i db emptyRow))%Z /\
           (scoreOf toLowerCase kws (nth i db emptyRow)
            = scoreOf toLowerCase kws (nth j db emptyRow) -> i < j)) /\
        res = map (fun i => summaryOfRow (nth i db emptyRow)) (firstn 6 ranked)).
Proof.
  intro H. split; [reflexivity|]. split.
  - destruct db as [|p db].
    + unfold findRelevantProducts in H. simpl in H. injection H as <-. simpl. lia.
    + apply findRelevantProducts_unfold in H as (kws & scored & _ & _ & ->);
        [|discriminate].
      rewrite length_map. unfold topMatches, slice0.
      rewrite length_firstn. apply Nat.le_min_l.
  - intros kws Hk.
    set (scores := map (scoreOf toLowerCase kws) db).
    assert (Hin : forall i, In i (rankedAll scores) <->
                    i < List.length db /\
                    (0 < scoreOf toLowerCase kws (nth i db emptyRow))%Z).
    { intro i. rewrite rankedAll_In. unfold scores. rewrite length_map. split.
      - intros [Hb Hpos]. split; [exact Hb|]. now rewrite nth_scoreOf in Hpos.
      - intros [Hb Hpos]. split; [exact Hb|]. now rewrite nth_scoreOf. }
    exists (rankedAll scores).
    split; [exact Hin|]. split; [apply rankedAll_NoDup|]. split.
    + intros a b Hab i j.
      pose proof (StronglySorted_nth _ _ 0 a b (rankedAll_sorted scores) Hab) as HR.
      fold i j in HR.
      assert (Hi : i < List.length db) by (apply Hin, nth_In; lia).
      assert (Hj : j < List.length db) by (apply Hin, nth_In; lia).
      unfold ranksBefore, scores in HR. rewrite !nth_scoreOf in HR by assumption.
      split; [lia|]. intro Heq. lia.
    + rewrite (findRelevantProducts_positions toLowerCase db sd kws res Hk H).
      fold scores. now rewrite rankedPositions_prefix.
Qed.

(** C6. A material slot whose lower-cased value is "unknown" or
    "unspecified" contributes no keyword: extraction gives the same sequence
    as for the description without that slot. *)
Theorem sentinel_material_contributes_nothing
  (bm : option jsstring) (ms1 ms2 : list (jsstring * option jsstring))
  (slot m : jsstring) (recs : option (list CleaningRecommendation))
  (tags : option (list jsstring)) :
  toLowerCase m = lit "unknown" \/ toLowerCase m = lit "unspecified" ->
  extractKeywords toLowerCase
    (mkShoe bm (Some (ms1 ++ (slot, Some m) :: ms2)) recs tags)
  = extractKeywords toLowerCase (mkShoe bm (Some (ms1 ++ ms2)) recs tags).
Proof.
  intro Hm. unfold extractKeywords.
  cbn [brandAndModel materials cleaningRecommendations recommendedTags].
  rewrite !map_app, !fold_left_app. cbn [map fold_left snd].
  assert (Hstep : forall kws, materialStep toLowerCase kws (Some m) = kws).
  { intro kws. unfold materialStep.
    destruct Hm as [-> | ->]; simpl; rewrite ?andb_false_r; reflexivity. }
  now rewrite Hstep.
Qed.

(** C7. With an empty catalog the function returns the empty sequence at
    once, whatever the description (keyword extraction and scoring are not
    reached, so nothing can throw); with an empty keyword sequence it returns
    the empty sequence for every catalog. *)
Theorem degenerate_inputs_give_empty :
  (forall sd, findRelevantProducts toLowerCase [] sd = Normal []) /\
  (forall db sd,
      extractKeywords toLowerCase sd = Normal [] ->
      findRelevantProducts toLowerCase db sd = Normal []).
Proof.
  split; [reflexivity|].
  intros db sd Hk. unfold findRelevantProducts. rewrite Hk. simpl.
  destruct (Nat.eqb (List.length db) 0); [reflexivity|].
  rewrite (mapM_total _ (fun p => mkScored p 0)).
  - simpl. f_equal.
    assert (Hf : filter hasMatches (map (fun p => mkScored p 0) db) = []).
    { induction db as [|p db IH]; simpl; auto. }
    unfold topMatches. now rewrite Hf.
  - rewrite Forall_forall. intros p _. apply scoreProduct_no_keywords.
Qed.

(** C8. Every returned summary is that of a catalog position whose score,
    recomputed against the same keywords, is strictly positive. *)
Theorem returned_products_score_positive
  (db : list Row) (sd : ShoeDetails) (kws : list jsstring) (res : list ProductSummary) :
  extractKeywords toLowerCase sd = Normal kws ->
  findRelevantProducts toLowerCase db sd = Normal res ->
  exists idx : list nat,
    res = map (fun i => summaryOfRow (nth i db emptyRow)) idx /\
    Forall (fun i =>
              i < List.length db /\
              exists s, scoreProduct toLowerCase kws (nth i db emptyRow)
                        = Normal (mkScored (nth i db emptyRow) s) /\ (0 < s)%Z) idx.
Proof.
  intros Hk H.
  exists (rankedPositions (map (scoreOf toLowerCase kws) db)).
  split; [now apply (findRelevantProducts_positions toLowerCase db sd kws)|].
  rewrite Forall_forall. intros i Hi.
  apply rankedPositions_In in Hi as [Hi Hpos]. rewrite length_map in Hi.
  rewrite nth_scoreOf in Hpos by exact Hi.
  split; [exact Hi|].
  exists (scoreOf toLowerCase kws (nth i db emptyRow)). split; [|exact Hpos].
  unfold scoreOf in *.
  destruct (scoreProduct toLowerCase kws (nth i db emptyRow)) as [item|e] eqn:Hs;
    [|lia].
  apply scoreProduct_product in Hs. rewrite Hs. unfold scoreOf.
  destruct (scoreProduct toLowerCase kws (nth i db emptyRow)); reflexivity.
Qed.

(** C9. The empty keyword is contained in the text of every product, and a
    keyword sequence in which it occurs gives every product that has a title
    a strictly positive score. *)
Theorem empty_keyword_matches_every_product
  (kws : list jsstring) (p : Row) (t : jsstring) :
  Title p = Some t ->
  In [] kws ->
  includes (productText toLowerCase p) [] = true /\
  exists s, scoreProduct toLowerCase kws p = Normal (mkScored p s) /\ (0 < s)%Z.
Proof.
  intros Ht Hin. split; [apply includes_empty|].
  destruct (forEach_scoreStep_empty_keyword toLowerCase p t kws 0 Ht Hin)
    as (s & Hs & Hpos).
  exists s. split; [|lia].
  unfold scoreProduct. now rewrite Hs.
Qed.

(** C10. The result comes from pairwise distinct catalog positions: no
    catalog entry gives rise to two entries of the result. *)
Theorem one_entry_per_catalog_position
  (db : list Row) (sd : ShoeDetails) (res : list ProductSummary) :
  findRelevantProducts toLowerCase db sd = Normal res ->
  exists idx : list nat,
    res = map (fun i => summaryOfRow (nth i db emptyRow)) idx /\
    NoDup idx /\
    Forall (fun i => i < List.length db) idx.
Proof.
  intro H. destruct db as [|p db].
  - unfold findRelevantProducts in H. simpl in H. injection H as <-.
    exists []. repeat split; constructor.
  - pose proof H as H'.
    apply findRelevantProducts_unfold in H' as (kws & scored & Hk & _ & _);
      [|discriminate].
    exists (rankedPositions (map (scoreOf toLowerCase kws) (p :: db))).
    split; [now apply (findRelevantProducts_positions toLowerCase _ sd kws)|].
    split; [apply rankedPositions_NoDup|].
    rewrite Forall_forall. intros i Hi.
    apply rankedPositions_In in Hi as [Hi _]. now rewrite length_map in Hi.
Qed.

End Claims.

(** The earlier revision returns at most five products. *)
Lemma ServerJs_result_at_most_five (toLowerCase : jsstring -> jsstring)
      (db : list Row) (sd : ShoeDetails) :
  List.length (ServerJs.findRelevantProducts toLowerCase db sd) <= 5.
Proof.
  unfold ServerJs.findRelevantProducts.
  destruct (Nat.eqb (List.length db) 0); [simpl; lia|].
  rewrite length_map. unfold slice0. rewrite length_firstn. apply Nat.le_min_l.
Qed.

(** C3. Missing fields do reach the caller as exceptions.  A row without
    [Title] whose text matches a keyword makes the scoring pass throw; a
    cleaning entry without [recommendations] makes keyword extraction throw;
    and a missing key is read as the text "undefined", not as the empty
    string, so a row with no body, tags or vendor is matched by "fine". *)
Theorem missing_fields_raise :
  findRelevantProducts asciiLower [untitledRow] leatherUpper = Throw TypeError /\
  findRelevantProducts asciiLower Scenario.catalog entryWithoutRecommendations
  = Throw TypeError /\
  findRelevantProducts asciiLower [bareRow] fineBrand = Normal [summaryOfRow bareRow].
Proof. repeat split; vm_compute; reflexivity. Qed.

(** ** The worked example *)

Example scenario_keywords :
  extractKeywords asciiLower Scenario.description
  = Normal Scenario.keywords.
Proof. vm_compute. reflexivity. Qed.

Example scenario_ranking :
  findRelevantProducts asciiLower Scenario.catalog Scenario.description
  = Normal Scenario.ranked.
Proof. vm_compute. reflexivity. Qed.

Example scenario_scores :
  map (scoreOf asciiLower Scenario.keywords) Scenario.catalog = [9; 0; 2]%Z.
Proof. vm_compute. reflexivity. Qed.

Example scenario_prices :
  map price Scenario.ranked = [lit "$9.99"; lit "$5.00"].
Proof. vm_compute. reflexivity. Qed.

(** Two adjacent spaces in the brand produce the empty keyword. *)
Example double_space_keywords :
  extractKeywords asciiLower (mkShoe (Some (lit "Nike  Air")) None None None)
  = Normal [lit "nike"; []; lit "air"].
Proof. vm_compute. reflexivity. Qed.

(** ** Instances *)

Lemma score_is_sum_of_contributions_witness :
  asciiLower [] = [] /\
  scoreProduct asciiLower Scenario.keywords Scenario.P1
  = Normal (mkScored Scenario.P1 9).
Proof.
  split; [reflexivity|].
  exact (proj1 (score_is_sum_of_contributions asciiLower Scenario.keywords
                  (Some (lit "p1")) (Some (lit "9.99")) None
                  (lit "Leather Cleaner Spray") [] (lit "cleaner,leather") (lit "Acme")
                  eq_refl)).
Defined.

(** The claim as worded, with words separated by any whitespace, fails on a
    brand written with a tab: the source yields the single keyword
    "air<TAB>max". *)
Lemma keywords_whitespace_split_counterexample :
  extractKeywords asciiLower tabbedBrand
  <> Normal (describedKeywords asciiLower (splitBy is_whitespace) tabbedBrand).
Proof. vm_compute. intro H. discriminate H. Qed.

Lemma keywords_split_at_spaces_witness :
  recommendationsPresent Scenario.description /\
  extractKeywords asciiLower Scenario.description = Normal Scenario.keywords.
Proof.
  assert (H : recommendationsPresent Scenario.description).
  { simpl. repeat constructor. simpl. discriminate. }
  split; [exact H|].
  exact (keywords_split_at_spaces asciiLower Scenario.description H).
Defined.

Lemma ranking_descending_stable_witness :
  extractKeywords asciiLower Scenario.description = Normal Scenario.keywords /\
  findRelevantProducts asciiLower Scenario.catalog Scenario.description
  = Normal Scenario.ranked /\
  exists idx : list nat,
    Scenario.ranked = map (fun i => summaryOfRow (nth i Scenario.catalog emptyRow)) idx /\
    Forall (fun i => i < 3) idx /\
    forall a b, a < b < List.length idx ->
      (scoreOf asciiLower Scenario.keywords (nth (nth b idx 0%nat) Scenario.catalog emptyRow)
       <= scoreOf asciiLower Scenario.keywords (nth (nth a idx 0%nat) Scenario.catalog emptyRow))%Z /\
      (scoreOf asciiLower Scenario.keywords (nth (nth a idx 0%nat) Scenario.catalog emptyRow)
       = scoreOf asciiLower Scenario.keywords (nth (nth b idx 0%nat) Scenario.catalog emptyRow)
       -> nth a idx 0%nat < nth b idx 0%nat%nat).
Proof.
  split; [reflexivity|]. split; [reflexivity|].
  exact (ranking_descending_stable asciiLower Scenario.catalog Scenario.description
           Scenario.keywords Scenario.ranked eq_refl eq_refl).
Defined.

Lemma result_is_first_six_witness :
  findRelevantProducts asciiLower Scenario.bigCatalog Scenario.description
  = Normal (map summaryOfRow
              [Scenario.P1; Scenario.P1; Scenario.P1; Scenario.P1;
               Scenario.P3; Scenario.P3]) /\
  extractKeywords asciiLower Scenario.description = Normal Scenario.keywords /\
  exists ranked : list nat,
    (forall i, In i ranked <->
               i < 9 /\
               (0 < scoreOf asciiLower Scenario.keywords
                      (nth i Scenario.bigCatalog emptyRow))%Z) /\
    NoDup ranked /\
    (forall a b, a < b < List.length ranked ->
       (scoreOf asciiLower Scenario.keywords
          (nth (nth b ranked 0%nat) Scenario.bigCatalog emptyRow)
        <= scoreOf asciiLower Scenario.keywords
             (nth (nth a ranked 0%nat) Scenario.bigCatalog emptyRow))%Z /\
       (scoreOf asciiLower Scenario.keywords
          (nth (nth a ranked 0%nat) Scenario.bigCatalog emptyRow)
        = scoreOf asciiLower Scenario.keywords
            (nth (nth b ranked 0%nat) Scenario.bigCatalog emptyRow)
        -> nth a ranked 0%nat < nth b ranked 0%nat)) /\
    map summaryOfRow
        [Scenario.P1; Scenario.P1; Scenario.P1; Scenario.P1; Scenario.P3; Scenario.P3]
    = map (fun i => summaryOfRow (nth i Scenario.bigCatalog emptyRow))
          (firstn 6 ranked).
Proof.
  assert (H : findRelevantProducts asciiLower Scenario.bigCatalog Scenario.description
              = Normal (map summaryOfRow
                          [Scenario.P1; Scenario.P1; Scenario.P1; Scenario.P1;
                           Scenario.P3; Scenario.P3]))
    by (vm_compute; reflexivity).
  split; [exact H|]. split; [reflexivity|].
  exact (proj2 (proj2 (result_is_first_six asciiLower Scenario.bigCatalog
                         Scenario.description _ H))
           Scenario.keywords eq_refl).
Defined.

Lemma sentinel_material_contributes_nothing_witness :
  asciiLower (lit "Unknown") = lit "unknown" /\
  extractKeywords asciiLower unknownUpper
  = extractKeywords asciiLower
      (mkShoe None (Some [(lit "outsole", Some (lit "Rubber"))]) None None).
Proof.
  split; [reflexivity|].
  exact (sentinel_material_contributes_nothing asciiLower None []
           [(lit "outsole", Some (lit "Rubber"))] (lit "upper") (lit "Unknown")
           None None (or_introl eq_refl)).
Defined.

Lemma degenerate_inputs_give_empty_witness :
  extractKeywords asciiLower emptyDescription = Normal [] /\
  findRelevantProducts asciiLower Scenario.catalog emptyDescription = Normal [] /\
  findRelevantProducts asciiLower [] entryWithoutRecommendations = Normal [].
Proof.
  split; [reflexivity|]. split.
  - exact (proj2 (degenerate_inputs_give_empty asciiLower)
             Scenario.catalog emptyDescription eq_refl).
  - exact (proj1 (degenerate_inputs_give_empty asciiLower) entryWithoutRecommendations).
Defined.

Lemma returned_products_score_positive_witness :
  extractKeywords asciiLower Scenario.description = Normal Scenario.keywords /\
  findRelevantProducts asciiLower Scenario.catalog Scenario.description
  = Normal Scenario.ranked /\
  exists idx : list nat,
    Scenario.ranked = map (fun i => summaryOfRow (nth i Scenario.catalog emptyRow)) idx /\
    Forall (fun i =>
              i < 3 /\
              exists s, scoreProduct asciiLower Scenario.keywords
                          (nth i Scenario.catalog emptyRow)
                        = Normal (mkScored (nth i Scenario.catalog emptyRow) s)
                        /\ (0 < s)%Z) idx.
Proof.
  split; [reflexivity|]. split; [reflexivity|].
  exact (returned_products_score_positive asciiLower Scenario.catalog
           Scenario.description Scenario.keywords Scenario.ranked eq_refl eq_refl).
Defined.

Lemma empty_keyword_matches_every_product_witness :
  Title Scenario.P2 = Some (lit "Suede Brush") /\
  In [] [lit "nike"; []; lit "air"] /\
  includes (productText asciiLower Scenario.P2) [] = true /\
  exists s, scoreProduct asciiLower [lit "nike"; []; lit "air"] Scenario.P2
            = Normal (mkScored Scenario.P2 s) /\ (0 < s)%Z.
Proof.
  split; [reflexivity|].
  assert (Hin : In [] [lit "nike"; []; lit "air"]) by (simpl; tauto).
  split; [exact Hin|].
  exact (empty_keyword_matches_every_product asciiLower [lit "nike"; []; lit "air"]
           Scenario.P2 (lit "Suede Brush") eq_refl Hin).
Defined.

Lemma one_entry_per_catalog_position_witness :
  findRelevantProducts asciiLower Scenario.catalog Scenario.description
  = Normal Scenario.ranked /\
  exists idx : list nat,
    Scenario.ranked = map (fun i => summaryOfRow (nth i Scenario.catalog emptyRow)) idx /\
    NoDup idx /\
    Forall (fun i => i < 3) idx.
Proof.
  split; [reflexivity|].
  exact (one_entry_per_catalog_position asciiLower Scenario.catalog
           Scenario.description Scenario.ranked eq_refl).
Defined.

(** ** Further properties of the scoring revision *)

Lemma mapM_throws {A B} (f : A -> completion B) (l : list A) :
  mapM f l = Throw TypeError <-> exists x, In x l /\ f x = Throw TypeError.
Proof.
  induction l as [|x l IH]; simpl.
  - split; [discriminate | intros (x & [] & _)].
  - destruct (f x) as [y|[]] eqn:Hx; simpl.
    + destruct (mapM f l) as [ys|[]]; simpl.
      * split; [discriminate|]. intros (z & [<-|Hz] & Hf); [congruence|].
        assert (H : Normal ys = Throw TypeError) by (apply IH; eauto). discriminate.
      * split; [|reflexivity]. intros _.
        destruct (proj1 IH eq_refl) as (z & Hz & Hf). eauto.
    + split; [|reflexivity]. intros _. exists x. auto.
Qed.

Section ScoringMore.

Variable toLowerCase : jsstring -> jsstring.


Lemma scoreStep_untitled (p : Row) (text : jsstring) (acc : Z) (kw : jsstring) :
  Title p = None ->
  scoreStep toLowerCase p text acc kw
  = if includes text kw then Throw TypeError else Normal acc.
Proof. intro Ht. unfold scoreStep. now rewrite Ht. Qed.

Lemma forEach_scoreStep_untitled (p : Row) (text : jsstring)
      (kws : list jsstring) (acc : Z) :
  Title p = None ->
  forEach (scoreStep toLowerCase p text) kws acc
  = if existsb (includes text) kws then Throw TypeError else Normal acc.
Proof.
  intro Ht. induction kws as [|kw kws IH]; simpl; [reflexivity|].
  rewrite scoreStep_untitled by exact Ht.
  destruct (includes text kw); simpl; [reflexivity | exact IH].
Qed.

Lemma keywordGain_range (p : Row) (t : jsstring) (kw : jsstring) :
  Title p = Some t ->
  (if includes (productText toLowerCase p) kw
   then (1 <= keywordGain toLowerCase p kw <= 3)%Z
   else keywordGain toLowerCase p kw = 0%Z).
Proof.
  intro Ht. unfold keywordGain, scoreStep. rewrite Ht.
  destruct (includes (productText toLowerCase p) kw); [|reflexivity].
  destruct (includes (toLowerCase t) kw); [lia|].
  match goal with |- context [if ?c then _ else _] => destruct c end; lia.
Qed.

Lemma scoreStep_gain (p : Row) (t : jsstring) (acc : Z) (kw : jsstring) :
  Title p = Some t ->
  scoreStep toLowerCase p (productText toLowerCase p) acc kw
  = Normal (acc + keywordGain toLowerCase p kw)%Z.
Proof.
  intro Ht. unfold keywordGain, scoreStep. rewrite Ht.
  destruct (includes (productText toLowerCase p) kw); [|now rewrite Z.add_0_r].
  destruct (includes (toLowerCase t) kw); [reflexivity|].
  match goal with |- context [if ?c then _ else _] => destruct c end; reflexivity.
Qed.

Lemma forEach_scoreStep_gain (p : Row) (t : jsstring) (kws : list jsstring) (acc : Z) :
  Title p = Some t ->
  forEach (scoreStep toLowerCase p (productText toLowerCase p)) kws acc
  = Normal (acc + sumZ (map (keywordGain toLowerCase p) kws))%Z.
Proof.
  intro Ht. revert acc. induction kws as [|kw kws IH]; intro acc; simpl.
  - now rewrite Z.add_0_r.
  - rewrite (scoreStep_gain p t) by exact Ht. simpl. rewrite IH. f_equal. lia.
Qed.

Lemma scoreProduct_titled (p : Row) (t : jsstring) (kws : list jsstring) :
  Title p = Some t ->
  scoreProduct toLowerCase kws p
  = Normal (mkScored p (sumZ (map (keywordGain toLowerCase p) kws))).
Proof.
  intro Ht. unfold scoreProduct.
  now rewrite (forEach_scoreStep_gain p t) by exact Ht.
Qed.

Lemma scoreProduct_untitled (p : Row) (kws : list jsstring) :
  Title p = None ->
  scoreProduct toLowerCase kws p
  = if existsb (includes (productText toLowerCase p)) kws
    then Throw TypeError else Normal (mkScored p 0).
Proof.
  intro Ht. unfold scoreProduct. rewrite forEach_scoreStep_untitled by exact Ht.
  destruct (existsb _ kws); reflexivity.
Qed.

Lemma scoreProduct_throws (kws : list jsstring) (p : Row) :
  scoreProduct toLowerCase kws p = Throw TypeError
  <-> Title p = None /\
      exists kw, In kw kws /\ includes (productText toLowerCase p) kw = true.
Proof.
  destruct (Title p) as [t|] eqn:Ht.
  - rewrite (scoreProduct_titled p t) by exact Ht.
    split; [discriminate | intros [H _]; discriminate].
  - rewrite scoreProduct_untitled by exact Ht.
    destruct (existsb _ kws) eqn:He.
    + apply existsb_exists in He. tauto.
    + split; [discriminate|]. intros [_ Hex].
      apply existsb_exists in Hex. congruence.
Qed.

Lemma sumZ_gain_bounds (p : Row) (t : jsstring) (kws : list jsstring) :
  Title p = Some t ->
  (Z.of_nat (List.length (matchingKeywords toLowerCase kws p))
   <= sumZ (map (keywordGain toLowerCase p) kws)
   <= 3 * Z.of_nat (List.length (matchingKeywords toLowerCase kws p)))%Z.
Proof.
  intro Ht. unfold matchingKeywords.
  induction kws as [|kw kws IH]; [simpl; lia|].
  cbn [map filter]. rewrite sumZ_cons.
  pose proof (keywordGain_range p t kw Ht) as Hg.
  destruct (includes (productText toLowerCase p) kw);
    [cbn [List.length]; rewrite Nat2Z.inj_succ|]; lia.
Qed.

End ScoringMore.

(** *** Selection keeps the best positions *)

Lemma length_filter_tag {A} (p : A -> bool) (l : list A) :
  List.length (filter (fun a : nat * A => p (snd a)) (tag l))
  = List.length (filter p l).
Proof.
  rewrite <- (map_snd_combine_seq l 0) at 2. fold (tag l).
  now rewrite filter_map_comm, length_map.
Qed.

Lemma StronglySorted_app_cross {A} (R : A -> A -> Prop) (l1 l2 : list A) (x y : A) :
  StronglySorted R (l1 ++ l2) -> In x l1 -> In y l2 -> R x y.
Proof.
  induction l1 as [|z l1 IH]; simpl; intros Hs Hx Hy; [tauto|].
  apply StronglySorted_inv in Hs as [Hs Hz].
  destruct Hx as [->|Hx]; [|now apply IH].
  rewrite Forall_forall in Hz. apply Hz, in_or_app. now right.
Qed.

Lemma rankedPositions_count (scores : list Z) :
  List.length (rankedPositions scores) = Nat.min TOP_K (positiveCount scores).
Proof.
  unfold rankedPositions, slice0, positiveCount.
  rewrite length_map, length_firstn, sort_length.
  now rewrite (length_filter_tag (fun s => (0 <? s)%Z)).
Qed.

Lemma rankedPositions_best (scores : list Z) (j : nat) :
  j < List.length scores -> (0 < nth j scores 0)%Z ->
  ~ In j (rankedPositions scores) ->
  List.length (rankedPositions scores) = TOP_K /\
  forall i, In i (rankedPositions scores) -> ranksBefore scores i j.
Proof.
  intros Hj Hpos Hout.
  set (sorted := sort pairCmp
                   (filter (fun a : nat * Z => (0 <? snd a)%Z) (tag scores))).
  assert (Hin : In (j, nth j scores 0%Z) sorted).
  { apply sort_In, filter_In. split; [now apply In_tag_intro|].
    simpl. now apply Z.ltb_lt. }
  rewrite <- (firstn_skipn TOP_K sorted) in Hin.
  apply in_app_or in Hin as [Hin|Hin].
  { exfalso. apply Hout. rewrite rankedPositions_pairs.
    apply in_map_iff. exists (j, nth j scores 0%Z). auto. }
  split.
  - rewrite rankedPositions_pairs, length_map. unfold rankedPairs, slice0.
    fold sorted. rewrite length_firstn.
    assert (TOP_K < List.length sorted).
    { destruct (Nat.lt_ge_cases TOP_K (List.length sorted)) as [H|H]; [exact H|].
      rewrite skipn_all2 in Hin by exact H. destruct Hin. }
    lia.
  - intros i Hi. rewrite rankedPositions_pairs in Hi.
    apply in_map_iff in Hi as [[i' s] [Hfst Hi]]. simpl in Hfst. subst i'.
    pose proof (rankedPairs_In scores i s Hi) as (_ & Hs & _).
    assert (HR : pairBefore (i, s) (j, nth j scores 0%Z)).
    { apply (StronglySorted_app_cross pairBefore
               (firstn TOP_K sorted) (skipn TOP_K sorted)); auto.
      rewrite firstn_skipn. unfold sorted.
      apply sort_pairs, StronglySorted_filter_keep, tag_increasing. }
    unfold pairBefore in HR. unfold ranksBefore. simpl in HR. now rewrite Hs.
Qed.

Section MoreProperties.

Variable toLowerCase : jsstring -> jsstring.


(** X2. The ranking raises exactly when the catalog is non-empty and either
    keyword extraction raises or some row without [Title] has a text that
    contains one of the extracted keywords. *)
Theorem ranking_raises_iff (db : list Row) (sd : ShoeDetails) :
  findRelevantProducts toLowerCase db sd = Throw TypeError
  <-> db <> [] /\
      (extractKeywords toLowerCase sd = Throw TypeError \/
       exists kws,
         extractKeywords toLowerCase sd = Normal kws /\
         exists p kw, In p db /\ Title p = None /\ In kw kws /\
                      includes (productText toLowerCase p) kw = true).
Proof.
  unfold findRelevantProducts. destruct db as [|p0 db].
  - simpl. split; [discriminate | intros [H _]; congruence].
  - change (Nat.eqb (List.length (p0 :: db)) 0) with false. cbv iota.
    destruct (extractKeywords toLowerCase sd) as [kws|[]]; unfold bind at 1.
    + pose proof (mapM_throws (scoreProduct toLowerCase kws) (p0 :: db)) as Hiff.
      destruct (mapM (scoreProduct toLowerCase kws) (p0 :: db)) as [scored|[]];
        unfold bind.
      * split; [discriminate|]. intros [_ [H|(kws' & Hk & p & kw & Hp & Ht & Hkw & Hinc)]];
          [discriminate|].
        injection Hk as <-.
        assert (H : Normal scored = Throw TypeError).
        { apply Hiff. exists p. split; [exact Hp|].
          apply scoreProduct_throws. eauto. }
        discriminate.
      * split; [|reflexivity]. intros _. split; [discriminate|]. right.
        exists kws. split; [reflexivity|].
        destruct (proj1 Hiff eq_refl) as (p & Hp & Hthrow).
        apply scoreProduct_throws in Hthrow as (Ht & kw & Hkw & Hinc).
        exists p, kw. auto.
    + split; [|reflexivity]. intros _. split; [discriminate | now left].
Qed.

(** X3. For a row with a [Title] the score lies between the number of
    keyword occurrences found in the row's text and three times that
    number; so the row is retained exactly when its text contains some
    keyword. *)
Theorem score_counts_matches (kws : list jsstring) (p : Row) (t : jsstring) :
  Title p = Some t ->
  let m := Z.of_nat (List.length (matchingKeywords toLowerCase kws p)) in
  exists s,
    scoreProduct toLowerCase kws p = Normal (mkScored p s) /\
    (m <= s <= 3 * m)%Z /\
    ((0 < s)%Z <->
     exists kw, In kw kws /\ includes (productText toLowerCase p) kw = true).
Proof.
  intros Ht m. exists (sumZ (map (keywordGain toLowerCase p) kws)).
  split; [now apply (scoreProduct_titled toLowerCase p t)|].
  pose proof (sumZ_gain_bounds toLowerCase p t kws Ht) as Hb. fold m in Hb.
  split; [exact Hb|].
  assert (Hm : (0 < m)%Z <->
               exists kw, In kw kws /\ includes (productText toLowerCase p) kw = true).
  { unfold m, matchingKeywords. split.
    - intro Hpos.
      destruct (filter (fun kw => includes (productText toLowerCase p) kw) kws)
        as [|kw l] eqn:Hf; [simpl in Hpos; lia|].
      assert (Hin : In kw (filter (fun kw => includes (productText toLowerCase p) kw) kws))
        by (rewrite Hf; now left).
      apply filter_In in Hin. eauto.
    - intros (kw & Hkw & Hinc).
      assert (Hin : In kw (filter (fun kw => includes (productText toLowerCase p) kw) kws))
        by (apply filter_In; auto).
      destruct (filter (fun kw => includes (productText toLowerCase p) kw) kws);
        [destruct Hin | simpl List.length; lia]. }
  rewrite <- Hm. lia.
Qed.

End MoreProperties.

Lemma sumZ_Permutation (l l' : list Z) : Permutation l l' -> sumZ l = sumZ l'.
Proof.
  induction 1 as [| x l l' _ IH | x y l | l l' l'' _ IH1 _ IH2]; simpl;
    [reflexivity | rewrite IH; reflexivity | lia | congruence].
Qed.

Lemma existsb_Permutation {A} (f : A -> bool) (l l' : list A) :
  Permutation l l' -> existsb f l = existsb f l'.
Proof.
  induction 1 as [| x l l' _ IH | x y l | l l' l'' _ IH1 _ IH2]; simpl;
    [reflexivity | now rewrite IH | | congruence].
  destruct (f x), (f y); reflexivity.
Qed.

Section MoreProperties2.

Variable toLowerCase : jsstring -> jsstring.

(** X4. The outcome of scoring a row, a score or the exception, does not
    depend on the order of the keywords. *)
Theorem score_ignores_keyword_order (kws kws' : list jsstring) (p : Row) :
  Permutation kws kws' ->
  scoreProduct toLowerCase kws p = scoreProduct toLowerCase kws' p.
Proof.
  intro HP. destruct (Title p) as [t|] eqn:Ht.
  - rewrite !(scoreProduct_titled toLowerCase p t) by exact Ht.
    do 2 f_equal. apply sumZ_Permutation. now apply Permutation_map.
  - rewrite !scoreProduct_untitled by exact Ht.
    now rewrite (existsb_Permutation _ kws kws').
Qed.

(** X5. For a row with a [Title], scoring a concatenation of keyword
    sequences adds the scores of the parts; in particular the recommended
    tags, which are appended last, add their own score to that of the other
    keywords. *)
Theorem score_is_additive (kws1 kws2 : list jsstring) (p : Row) (t : jsstring) :
  Title p = Some t ->
  scoreOf toLowerCase (kws1 ++ kws2) p
  = (scoreOf toLowerCase kws1 p + scoreOf toLowerCase kws2 p)%Z.
Proof.
  intro Ht. unfold scoreOf.
  rewrite !(scoreProduct_titled toLowerCase p t) by exact Ht. simpl.
  now rewrite map_app, sumZ_app.
Qed.

(** X6. Truncation drops only the worst: the result has
    min(6, number of rows with positive score) entries, and a row with
    positive score that is left out ranks after every returned row (its score
    is not higher, and at equal score it comes later in the catalog). *)
Theorem top_six_are_the_best
  (db : list Row) (sd : ShoeDetails) (kws : list jsstring) (res : list ProductSummary) :
  extractKeywords toLowerCase sd = Normal kws ->
  findRelevantProducts toLowerCase db sd = Normal res ->
  exists idx : list nat,
    res = map (fun i => summaryOfRow (nth i db emptyRow)) idx /\
    List.length idx = Nat.min 6 (positiveCount (map (scoreOf toLowerCase kws) db)) /\
    forall j,
      j < List.length db ->
      (0 < scoreOf toLowerCase kws (nth j db emptyRow))%Z ->
      ~ In j idx ->
      List.length idx = 6 /\
      forall i, In i idx ->
        (scoreOf toLowerCase kws (nth j db emptyRow)
         <= scoreOf toLowerCase kws (nth i db emptyRow))%Z /\
        (scoreOf toLowerCase kws (nth i db emptyRow)
         = scoreOf toLowerCase kws (nth j db emptyRow) -> i < j).
Proof.
  intros Hk H.
  set (scores := map (scoreOf toLowerCase kws) db).
  exists (rankedPositions scores).
  split; [now apply (findRelevantProducts_positions toLowerCase db sd kws)|].
  split; [apply rankedPositions_count|].
  intros j Hj Hpos Hout.
  assert (Hj' : j < List.length scores) by (unfold scores; now rewrite length_map).
  assert (Hpos' : (0 < nth j scores 0)%Z)
    by (unfold scores; now rewrite nth_scoreOf).
  destruct (rankedPositions_best scores j Hj' Hpos' Hout) as [Hlen Hbest].
  split; [exact Hlen|].
  intros i Hi. pose proof (Hbest i Hi) as HR.
  apply rankedPositions_In in Hi as [Hi _]. unfold scores in Hi.
  rewrite length_map in Hi.
  unfold ranksBefore, scores in HR. rewrite !nth_scoreOf in HR by assumption.
  split; [lia|]. intro Heq. lia.
Qed.

(** X7. The revision without recommended tags extracts the keywords that
    precede the tags in the tagged revision, and it returns what the tagged
    revision returns on the description with its tags removed. *)
Theorem untagged_revision_agrees (db : list Row) (sd : ShoeDetails) :
  extractKeywords toLowerCase sd
  = (kws <- Untagged.extractKeywords toLowerCase sd ;;
     Normal (kws ++ match recommendedTags sd with
                    | Some tags => map toLowerCase tags
                    | None => []
                    end)) /\
  Untagged.findRelevantProducts toLowerCase db sd
  = findRelevantProducts toLowerCase db
      (mkShoe (brandAndModel sd) (materials sd) (cleaningRecommendations sd) None).
Proof.
  split.
  - unfold extractKeywords, Untagged.extractKeywords.
    match goal with
    | |- context [bind ?c _] => destruct c as [kws|e]
    end; simpl; [|reflexivity].
    destruct (recommendedTags sd); [reflexivity | now rewrite app_nil_r].
  - unfold Untagged.findRelevantProducts, findRelevantProducts.
    destruct (Nat.eqb (List.length db) 0); [reflexivity|].
    assert (He : Untagged.extractKeywords toLowerCase sd
                 = extractKeywords toLowerCase
                     (mkShoe (brandAndModel sd) (materials sd)
                             (cleaningRecommendations sd) None)).
    { unfold extractKeywords, Untagged.extractKeywords. simpl. reflexivity. }
    now rewrite He.
Qed.

End MoreProperties2.

(** ** The earlier revision in [server.js] *)

Lemma StronglySorted_map_fst_tag {A} (p : nat * A -> bool) (l : list A) :
  StronglySorted lt (map fst (filter p (tag l))).
Proof.
  apply StronglySorted_map, StronglySorted_filter_keep, tag_increasing.
Qed.

Section EarlierRevision.

Variable toLowerCase : jsstring -> jsstring.

(** X8. The earlier revision extracts the brand tokens, then the
    lower-cased non-empty material values, then the lower-cased non-empty
    affected parts.  No material value is excluded ("unknown" and
    "unspecified" are keywords here), and recommendation texts and tags are
    not read. *)
Theorem earlier_keywords_closed_form (sd : ShoeDetails) :
  ServerJs.extractKeywords toLowerCase sd
  = flat_map (fun bm => split_space (toLowerCase bm)) (present (brandAndModel sd))
    ++ match materials sd with
       | Some ms => map toLowerCase (flat_map (fun kv => present (snd kv)) ms)
       | None => []
       end
    ++ match cleaningRecommendations sd with
       | Some recs => map toLowerCase (flat_map (fun rec => present (affectedPart rec)) recs)
       | None => []
       end.
Proof.
  unfold ServerJs.extractKeywords.
  set (k1 := match brandAndModel sd with
             | Some bm => if truthy (brandAndModel sd)
                          then [] ++ split_space (toLowerCase bm) else []
             | None => []
             end).
  assert (Hk1 : k1 = flat_map (fun bm => split_space (toLowerCase bm))
                              (present (brandAndModel sd))).
  { unfold k1. destruct (brandAndModel sd) as [[|c s]|]; simpl; auto using app_nil_r. }
  rewrite <- Hk1. clear Hk1. generalize k1 as acc. clear k1. intro acc.
  assert (Hm : forall (ms : list (jsstring * option jsstring)) kws,
             fold_left
               (fun kws material =>
                  match material with
                  | Some m => if truthy material then kws ++ [toLowerCase m] else kws
                  | None => kws
                  end) (map snd ms) kws
             = kws ++ map toLowerCase (flat_map (fun kv => present (snd kv)) ms)).
  { induction ms as [|[k v] ms IH]; intro kws; simpl; [now rewrite app_nil_r|].
    rewrite IH. destruct v as [[|c m]|]; simpl; try reflexivity.
    now rewrite <- app_assoc. }
  assert (Hr : forall (recs : list CleaningRecommendation) kws,
             fold_left
               (fun kws rec =>
                  match affectedPart rec with
                  | Some part => if truthy (affectedPart rec)
                                 then kws ++ [toLowerCase part] else kws
                  | None => kws
                  end) recs kws
             = kws ++ map toLowerCase
                        (flat_map (fun rec => present (affectedPart rec)) recs)).
  { induction recs as [|rec recs IH]; intro kws; simpl; [now rewrite app_nil_r|].
    rewrite IH. destruct (affectedPart rec) as [[|c m]|]; simpl; try reflexivity.
    now rewrite <- app_assoc. }
  destruct (materials sd) as [ms|]; destruct (cleaningRecommendations sd) as [recs|];
    rewrite ?Hr, ?Hm, ?app_nil_r, <- ?app_assoc; reflexivity.
Qed.

(** X9. The earlier revision does not rank: it returns, in catalog order,
    the first five rows whose text contains some keyword.  A matching row is
    left out only when five matching rows precede it. *)
Theorem earlier_revision_first_five (db : list Row) (sd : ShoeDetails) :
  let kws := ServerJs.extractKeywords toLowerCase sd in
  let matches := fun p =>
    existsb (fun keyword => includes (ServerJs.productText toLowerCase p) keyword) kws in
  exists idx : list nat,
    ServerJs.findRelevantProducts toLowerCase db sd
    = map (fun i => ServerJs.toSummary (nth i db emptyRow)) idx /\
    StronglySorted lt idx /\
    Forall (fun i => i < List.length db /\ matches (nth i db emptyRow) = true) idx /\
    forall j, j < List.length db -> matches (nth j db emptyRow) = true ->
              ~ In j idx ->
              List.length idx = 5 /\ forall i, In i idx -> i < j.
Proof.
  intros kws matches.
  set (hits := filter (fun a : nat * Row => matches (snd a)) (tag db)).
  exists (map fst (firstn 5 hits)).
  assert (Hsorted : StronglySorted lt (map fst hits))
    by apply StronglySorted_map_fst_tag.
  assert (Hhit : forall i p, In (i, p) hits ->
                   i < List.length db /\ nth i db emptyRow = p /\ matches p = true).
  { intros i p Hin. apply filter_In in Hin as [Hin Hm].
    apply (In_tag db i p emptyRow) in Hin as [Hi Hn]. auto. }
  split; [|split; [|split]].
  - unfold ServerJs.findRelevantProducts. fold kws. fold matches.
    destruct db as [|p0 db]; [reflexivity|].
    change (Nat.eqb (List.length (p0 :: db)) 0) with false. cbv iota.
    unfold slice0.
    rewrite <- (map_snd_combine_seq (p0 :: db) 0) at 1. fold (tag (p0 :: db)).
    rewrite filter_map_comm. fold hits.
    rewrite firstn_map, !map_map. apply map_ext_in.
    intros [i p] Hin. cbn [fst snd]. apply In_firstn in Hin.
    apply Hhit in Hin as (_ & Hn & _). now rewrite Hn.
  - rewrite <- firstn_map. now apply StronglySorted_firstn.
  - rewrite Forall_forall. intros i Hi.
    apply in_map_iff in Hi as [[i' p] [Hfst Hin]]. simpl in Hfst. subst i'.
    apply In_firstn in Hin. apply Hhit in Hin as (Hi & Hn & Hm).
    now rewrite Hn.
  - intros j Hj Hm Hout.
    assert (Hin : In (j, nth j db emptyRow) hits).
    { apply filter_In. split; [now apply In_tag_intro | exact Hm]. }
    rewrite <- (firstn_skipn 5 hits) in Hin.
    apply in_app_or in Hin as [Hin|Hin].
    { exfalso. apply Hout. apply in_map_iff. exists (j, nth j db emptyRow). auto. }
    split.
    + rewrite length_map, length_firstn.
      assert (5 < List.length hits).
      { destruct (Nat.lt_ge_cases 5 (List.length hits)) as [H|H]; [exact H|].
        rewrite skipn_all2 in Hin by exact H. destruct Hin. }
      lia.
    + intros i Hi.
      rewrite <- (firstn_skipn 5 hits), map_app in Hsorted.
      apply (StronglySorted_app_cross lt _ _ i j Hsorted Hi).
      apply in_map_iff. exists (j, nth j db emptyRow). auto.
Qed.

End EarlierRevision.

(** ** Loading the catalog *)

Lemma Loader_run_results (st : Loader.State) (events : list Loader.StreamEvent) :
  Loader.results (Loader.run st events) = Loader.results st ++ Loader.rowsOf events.
Proof.
  revert st; induction events as [|e events IH]; intro st; simpl.
  - now rewrite app_nil_r.
  - unfold Loader.run in *. simpl. rewrite IH.
    destruct e; simpl; rewrite <- ?app_assoc; reflexivity.
Qed.

Lemma Loader_run_ref (old : list Row) (events : list Loader.StreamEvent)
      (st : Loader.State) (acc : option Loader.Signal) :
  Loader.productsDatabase st = Loader.refOf old acc ->
  Loader.productsDatabase (Loader.run st events)
  = Loader.refOf old
      (fold_left (fun acc e => match e with
                               | Loader.Data _ => acc
                               | Loader.End => Some Loader.Ended
                               | Loader.Error => Some Loader.Failed
                               end) events acc).
Proof.
  revert st acc; induction events as [|e events IH]; intros st acc Hst; simpl;
    [exact Hst|].
  unfold Loader.run in *. simpl. apply IH. destruct e; simpl; auto.
Qed.

Lemma Loader_currentDatabase (old : list Row) (events : list Loader.StreamEvent) :
  Loader.currentDatabase
    (Loader.run (Loader.loadProductsDatabase Loader.StreamOpened old) events)
  = match Loader.lastSignal events with
    | None => old
    | Some Loader.Ended => Loader.rowsOf events
    | Some Loader.Failed => []
    end.
Proof.
  unfold Loader.currentDatabase.
  rewrite (Loader_run_ref old events _ None) by reflexivity.
  rewrite Loader_run_results. fold (Loader.lastSignal events).
  destruct (Loader.lastSignal events) as [[]|]; reflexivity.
Qed.

(** X10. After any sequence of stream events, [productsDatabase] is: the
    array it held before the load while neither "end" nor "error" has
    occurred; every row delivered so far, in order, when the last of them was
    "end" (rows delivered after "end" included, since the array is shared);
    the empty array when the last of them was "error". *)
Theorem database_after_events (old : list Row) (events : list Loader.StreamEvent) :
  Loader.currentDatabase
    (Loader.run (Loader.loadProductsDatabase Loader.StreamOpened old) events)
  = match Loader.lastSignal events with
    | None => old
    | Some Loader.Ended => Loader.rowsOf events
    | Some Loader.Failed => []
    end.
Proof. apply Loader_currentDatabase. Qed.

Lemma Loader_lastSignal_data (rows : list Row) (acc : option Loader.Signal) :
  fold_left (fun acc e => match e with
                          | Loader.Data _ => acc
                          | Loader.End => Some Loader.Ended
                          | Loader.Error => Some Loader.Failed
                          end) (map Loader.Data rows) acc = acc.
Proof. revert acc; induction rows as [|r rows IH]; intro acc; simpl; auto. Qed.

(** X11. Until the stream has ended no request gets a recommendation: at
    start-up ([productsDatabase] initially empty) the ranking returns the
    empty sequence for every description while rows are still arriving, and
    also when the CSV file is missing. *)
Theorem no_recommendations_while_loading
  (toLowerCase : jsstring -> jsstring) (rows : list Row) (sd : ShoeDetails) :
  findRelevantProducts toLowerCase
    (Loader.currentDatabase
       (Loader.run (Loader.loadProductsDatabase Loader.StreamOpened [])
                   (map Loader.Data rows))) sd
  = Normal [] /\
  findRelevantProducts toLowerCase
    (Loader.currentDatabase (Loader.loadProductsDatabase Loader.FileMissing rows)) sd
  = Normal [].
Proof.
  split; [|reflexivity].
  rewrite Loader_currentDatabase. unfold Loader.lastSignal.
  now rewrite Loader_lastSignal_data.
Qed.

(** X12. In [server.js] a stream error leaves the catalog as it is: its
    loader ends in the state that the later loader reaches on the same events
    with the errors removed. *)
Theorem serverjs_load_ignores_errors
  (st : Loader.State) (events : list Loader.StreamEvent) :
  Loader.runServerJs st events
  = Loader.run st (filter (fun e => negb (Loader.isError e)) events).
Proof.
  revert st; induction events as [|e events IH]; intro st; [reflexivity|].
  unfold Loader.runServerJs, Loader.run in *.
  destruct e; simpl; apply IH.
Qed.

(** ** The endpoint *)



Lemma forallb_rev {A} (f : A -> bool) (l : list A) :
  forallb f (rev l) = forallb f l.
Proof.
  induction l as [|x l IH]; simpl; [reflexivity|].
  rewrite forallb_app, IH. simpl. rewrite andb_true_r. apply andb_comm.
Qed.



Section EndpointProperties.

Variable toLowerCase : jsstring -> jsstring.
Variable qualityService : jsstring -> Endpoint.QualityReply.
Variable analysisService : Endpoint.ChatRequest -> Endpoint.AnalysisReply.

Let handle := Endpoint.analyzeShoe toLowerCase qualityService analysisService.
Let analyse := Endpoint.analyse toLowerCase analysisService.




Lemma selectTranslation_inherited (l : jsstring) :
  In l Endpoint.objectPrototypeNames -> Endpoint.selectTranslation l = None.
Proof.
  unfold Endpoint.objectPrototypeNames. simpl.
  intro H. repeat destruct H as [<-|H]; try reflexivity. destruct H.
Qed.



(** X15. A request that passes validation and names as [language] a
    property inherited from [Object.prototype] (such as "constructor" or
    "toString") is answered 500 [processing_error], and the service is not
    called. *)
Theorem inherited_language_is_server_error
  (db : list Row) (req : Endpoint.Request) (l : jsstring) :
  Endpoint.language req = Some l ->
  In l Endpoint.objectPrototypeNames ->
  Endpoint.hasImage req = true \/ Endpoint.hasBrandInfo req = true ->
  handle db req = (Endpoint.processingError, []).
Proof.
  intros Hl Hin Hvalid. unfold handle, Endpoint.analyzeShoe, Endpoint.answer.
  rewrite Hl, (selectTranslation_inherited l Hin).
  destruct Hvalid as [-> | ->]; [reflexivity|].
  now rewrite andb_false_r.
Qed.

Lemma analyse_calls (db : list Row) (request : Endpoint.ChatRequest)
      (calls : list Endpoint.ServiceCall) :
  snd (analyse db request calls) = calls ++ [Endpoint.AnalysisCall request].
Proof.
  unfold analyse, Endpoint.analyse.
  destruct (analysisService request) as [|sd]; [reflexivity|].
  destruct (findRelevantProducts toLowerCase db sd); reflexivity.
Qed.

(** X16. For a request with an image, a reply of the quality check that,
    once trimmed, is neither empty nor "PASS" ends the request: the answer is
    200 [image_quality] with the trimmed reply, and the analysis is not
    requested.  When the check fails, has no content, or its reply trims to
    "PASS" or to nothing, the analysis is requested after the check. *)
Theorem quality_check_gates_analysis
  (db : list Row) (req : Endpoint.Request) (img : jsstring) (tr : Endpoint.Translation) :
  Endpoint.base64Image req = Some img ->
  img <> [] ->
  Endpoint.selectTranslation
    (match Endpoint.language req with Some l => l | None => lit "en" end) = Some tr ->
  (forall c,
      qualityService img = Endpoint.QualityContent (Some c) ->
      Endpoint.trim c <> [] -> Endpoint.trim c <> lit "PASS" ->
      handle db req
      = (Endpoint.imageQuality (Endpoint.trim c), [Endpoint.QualityCall img])) /\
  (qualityService img = Endpoint.QualityCallFails \/
   qualityService img = Endpoint.QualityContent None \/
   (exists c, qualityService img = Endpoint.QualityContent (Some c) /\
              (Endpoint.trim c = [] \/ Endpoint.trim c = lit "PASS")) ->
   snd (handle db req)
   = [Endpoint.QualityCall img;
      Endpoint.AnalysisCall (Endpoint.analysisRequest tr req)]).
Proof.
  intros Himg Hne Htr.
  assert (Hhas : Endpoint.hasImage req = true).
  { unfold Endpoint.hasImage. rewrite Himg. destruct img; [contradiction | reflexivity]. }
  assert (Hunfold : handle db req
            = if truthy (Endpoint.checkImageQuality qualityService img)
              then (Endpoint.imageQuality
                      (interpolate (Endpoint.checkImageQuality qualityService img)),
                    [Endpoint.QualityCall img])
              else analyse db (Endpoint.analysisRequest tr req) [Endpoint.QualityCall img]).
  { unfold handle, Endpoint.analyzeShoe, Endpoint.answer.
    rewrite Hhas, Htr, Himg. reflexivity. }
  rewrite Hunfold. unfold Endpoint.checkImageQuality. split.
  - intros c Hq Hnil Hpass. rewrite Hq.
    destruct (jsstring_eqb (Endpoint.trim c) (lit "PASS")) eqn:He;
      [apply jsstring_eqb_eq in He; contradiction|].
    simpl. destruct (Endpoint.trim c); [contradiction | reflexivity].
  - intros [Hq|[Hq|(c & Hq & Hc)]]; rewrite Hq; simpl; try apply analyse_calls.
    destruct Hc as [Hc|Hc]; rewrite Hc; simpl; apply analyse_calls.
Qed.

(** X17. A 200 answer with shoe details carries exactly the ranking of the
    catalog against the description that the analysis returned: at most six
    products, computed without an exception, for the last call made. *)
Theorem details_response_is_sound
  (db : list Row) (req : Endpoint.Request) (sd : ShoeDetails)
  (products : list ProductSummary) (calls : list Endpoint.ServiceCall) :
  handle db req
  = (Endpoint.mkResponse 200 (Endpoint.DetailsBody sd products), calls) ->
  findRelevantProducts toLowerCase db sd = Normal products /\
  List.length products <= 6 /\
  exists request before,
    calls = before ++ [Endpoint.AnalysisCall request] /\
    analysisService request = Endpoint.AnalysisDetails sd.
Proof.
  assert (Han : forall request before,
             analyse db request before
             = (Endpoint.mkResponse 200 (Endpoint.DetailsBody sd products), calls) ->
             findRelevantProducts toLowerCase db sd = Normal products /\
             exists request before,
               calls = before ++ [Endpoint.AnalysisCall request] /\
               analysisService request = Endpoint.AnalysisDetails sd).
  { intros request before. unfold analyse, Endpoint.analyse.
    destruct (analysisService request) as [|sd'] eqn:Hs; [discriminate|].
    destruct (findRelevantProducts toLowerCase db sd') as [ps|e] eqn:Hf;
      [|discriminate].
    intro H. injection H as <- <- <-. split; [exact Hf|].
    exists request, before. auto. }
  intro H.
  assert (Hgoal : findRelevantProducts toLowerCase db sd = Normal products /\
                  exists request before,
                    calls = before ++ [Endpoint.AnalysisCall request] /\
                    analysisService request = Endpoint.AnalysisDetails sd).
  { unfold handle, Endpoint.analyzeShoe, Endpoint.answer in H.
    destruct (negb (Endpoint.hasImage req) && negb (Endpoint.hasBrandInfo req));
      [discriminate|].
    destruct (Endpoint.selectTranslation _) as [tr|]; [|discriminate].
    cbv zeta in H. fold analyse in H.
    destruct (Endpoint.hasImage req); [|now apply Han in H].
    destruct (truthy _); [discriminate | now apply Han in H]. }
  destruct Hgoal as [Hf Hcalls]. split; [exact Hf|]. split; [|exact Hcalls].
  destruct db as [|p db].
  - unfold findRelevantProducts in Hf. simpl in Hf. injection Hf as <-. simpl. lia.
  - apply findRelevantProducts_unfold in Hf as (kws & scored & _ & _ & ->);
      [|discriminate].
    rewrite length_map. unfold topMatches, slice0.
    rewrite length_firstn. apply Nat.le_min_l.
Qed.

(** X18. When the analysis succeeds but the ranking raises, the request is
    answered 500 [processing_error]: a cleaning entry without
    recommendations, or a matched row without title, costs the client the
    whole analysis. *)
Theorem ranking_exception_is_answered_500
  (db : list Row) (req : Endpoint.Request) (tr : Endpoint.Translation) (sd : ShoeDetails) :
  Endpoint.hasImage req = true \/ Endpoint.hasBrandInfo req = true ->
  Endpoint.selectTranslation
    (match Endpoint.language req with Some l => l | None => lit "en" end) = Some tr ->
  (Endpoint.hasImage req = true ->
   truthy (Endpoint.checkImageQuality qualityService
             (interpolate (Endpoint.base64Image req))) = false) ->
  analysisService (Endpoint.analysisRequest tr req) = Endpoint.AnalysisDetails sd ->
  findRelevantProducts toLowerCase db sd = Throw TypeError ->
  fst (handle db req) = Endpoint.processingError.
Proof.
  intros Hvalid Htr Hq Hs Hf.
  unfold handle, Endpoint.analyzeShoe, Endpoint.answer. rewrite Htr. cbv zeta.
  unfold Endpoint.analyse. rewrite Hs, Hf.
  destruct (Endpoint.hasImage req) eqn:Hi.
  - cbn [negb andb]. rewrite (Hq eq_refl). reflexivity.
  - destruct Hvalid as [H|H]; [discriminate|]. rewrite H. reflexivity.
Qed.

End EndpointProperties.

(** ** Instances of the further properties *)

Example big_catalog_ranking :
  findRelevantProducts asciiLower Scenario.bigCatalog Scenario.description
  = Normal (map summaryOfRow
              [Scenario.P1; Scenario.P1; Scenario.P1; Scenario.P1;
               Scenario.P3; Scenario.P3]).
Proof. vm_compute. reflexivity. Qed.

Lemma score_counts_matches_witness :
  Title Scenario.P1 = Some (lit "Leather Cleaner Spray") /\
  exists s,
    scoreProduct asciiLower Scenario.keywords Scenario.P1
    = Normal (mkScored Scenario.P1 s) /\
    (3 <= s <= 9)%Z /\
    ((0 < s)%Z <->
     exists kw, In kw Scenario.keywords /\
                includes (productText asciiLower Scenario.P1) kw = true).
Proof.
  split; [reflexivity|].
  exact (score_counts_matches asciiLower Scenario.keywords Scenario.P1
           (lit "Leather Cleaner Spray") eq_refl).
Defined.

Lemma score_ignores_keyword_order_witness :
  Permutation [lit "leather"; lit "cleaner"] [lit "cleaner"; lit "leather"] /\
  scoreProduct asciiLower [lit "leather"; lit "cleaner"] Scenario.P3
  = scoreProduct asciiLower [lit "cleaner"; lit "leather"] Scenario.P3.
Proof.
  assert (H : Permutation [lit "leather"; lit "cleaner"] [lit "cleaner"; lit "leather"])
    by apply perm_swap.
  split; [exact H|].
  exact (score_ignores_keyword_order asciiLower _ _ Scenario.P3 H).
Defined.

Lemma score_is_additive_witness :
  Title Scenario.P1 = Some (lit "Leather Cleaner Spray") /\
  scoreOf asciiLower ([lit "leather"; lit "upper"] ++ [lit "cleaner"]) Scenario.P1
  = (scoreOf asciiLower [lit "leather"; lit "upper"] Scenario.P1
     + scoreOf asciiLower [lit "cleaner"] Scenario.P1)%Z.
Proof.
  split; [reflexivity|].
  exact (score_is_additive asciiLower [lit "leather"; lit "upper"] [lit "cleaner"]
           Scenario.P1 (lit "Leather Cleaner Spray") eq_refl).
Defined.

Lemma top_six_are_the_best_witness :
  extractKeywords asciiLower Scenario.description = Normal Scenario.keywords /\
  findRelevantProducts asciiLower Scenario.bigCatalog Scenario.description
  = Normal (map summaryOfRow
              [Scenario.P1; Scenario.P1; Scenario.P1; Scenario.P1;
               Scenario.P3; Scenario.P3]) /\
  exists idx : list nat,
    map summaryOfRow
        [Scenario.P1; Scenario.P1; Scenario.P1; Scenario.P1; Scenario.P3; Scenario.P3]
    = map (fun i => summaryOfRow (nth i Scenario.bigCatalog emptyRow)) idx /\
    List.length idx = 6 /\
    forall j,
      j < 9 ->
      (0 < scoreOf asciiLower Scenario.keywords (nth j Scenario.bigCatalog emptyRow))%Z ->
      ~ In j idx ->
      List.length idx = 6 /\
      forall i, In i idx ->
        (scoreOf asciiLower Scenario.keywords (nth j Scenario.bigCatalog emptyRow)
         <= scoreOf asciiLower Scenario.keywords (nth i Scenario.bigCatalog emptyRow))%Z /\
        (scoreOf asciiLower Scenario.keywords (nth i Scenario.bigCatalog emptyRow)
         = scoreOf asciiLower Scenario.keywords (nth j Scenario.bigCatalog emptyRow)
         -> i < j).
Proof.
  split; [reflexivity|].
  assert (H : findRelevantProducts asciiLower Scenario.bigCatalog Scenario.description
              = Normal (map summaryOfRow
                          [Scenario.P1; Scenario.P1; Scenario.P1; Scenario.P1;
                           Scenario.P3; Scenario.P3]))
    by (vm_compute; reflexivity).
  split; [exact H|].
  exact (top_six_are_the_best asciiLower Scenario.bigCatalog Scenario.description
           Scenario.keywords _ eq_refl H).
Defined.


Lemma inherited_language_is_server_error_witness :
  Endpoint.language constructorRequest = Some (lit "constructor") /\
  In (lit "constructor") Endpoint.objectPrototypeNames /\
  Endpoint.hasBrandInfo constructorRequest = true /\
  Endpoint.analyzeShoe asciiLower passService describeService Scenario.catalog
    constructorRequest
  = (Endpoint.processingError, []).
Proof.
  assert (H2 : In (lit "constructor") Endpoint.objectPrototypeNames) by (now left).
  assert (H3 : Endpoint.hasBrandInfo constructorRequest = true) by reflexivity.
  split; [reflexivity|]. split; [exact H2|]. split; [exact H3|].
  exact (inherited_language_is_server_error asciiLower passService describeService
           Scenario.catalog constructorRequest (lit "constructor")
           eq_refl H2 (or_intror H3)).
Defined.

Lemma quality_check_gates_analysis_witness :
  Endpoint.base64Image imageRequest = Some (lit "QUJD") /\
  lit "QUJD" <> [] /\
  Endpoint.selectTranslation (lit "lt") = Some Endpoint.translation_lt /\
  Endpoint.analyzeShoe asciiLower blurService describeService Scenario.catalog
    imageRequest
  = (Endpoint.imageQuality (lit "Too blurry."), [Endpoint.QualityCall (lit "QUJD")]).
Proof.
  assert (H2 : lit "QUJD" <> []) by discriminate.
  assert (H3 : Endpoint.selectTranslation (lit "lt") = Some Endpoint.translation_lt)
    by reflexivity.
  split; [reflexivity|]. split; [exact H2|]. split; [exact H3|].
  refine (proj1 (quality_check_gates_analysis asciiLower blurService describeService
                   Scenario.catalog imageRequest (lit "QUJD") Endpoint.translation_lt
                   eq_refl H2 H3) (lit " Too blurry. ") eq_refl _ _);
    vm_compute; discriminate.
Defined.

Lemma details_response_is_sound_witness :
  Endpoint.analyzeShoe asciiLower passService describeService Scenario.catalog
    textRequest
  = (Endpoint.mkResponse 200 (Endpoint.DetailsBody Scenario.description Scenario.ranked),
     [Endpoint.AnalysisCall
        (Endpoint.analysisRequest Endpoint.translation_en textRequest)]) /\
  findRelevantProducts asciiLower Scenario.catalog Scenario.description
  = Normal Scenario.ranked /\
  List.length Scenario.ranked <= 6.
Proof.
  assert (H : Endpoint.analyzeShoe asciiLower passService describeService
                Scenario.catalog textRequest
              = (Endpoint.mkResponse 200
                   (Endpoint.DetailsBody Scenario.description Scenario.ranked),
                 [Endpoint.AnalysisCall
                    (Endpoint.analysisRequest Endpoint.translation_en textRequest)]))
    by (vm_compute; reflexivity).
  split; [exact H|].
  pose proof (details_response_is_sound asciiLower passService describeService
                Scenario.catalog textRequest Scenario.description Scenario.ranked _ H)
    as (Hf & Hlen & _).
  split; [exact Hf | exact Hlen].
Defined.

Lemma ranking_exception_is_answered_500_witness :
  Endpoint.hasBrandInfo textRequest = true /\
  Endpoint.selectTranslation (lit "en") = Some Endpoint.translation_en /\
  findRelevantProducts asciiLower Scenario.catalog entryWithoutRecommendations
  = Throw TypeError /\
  fst (Endpoint.analyzeShoe asciiLower passService brokenReplyService
         Scenario.catalog textRequest)
  = Endpoint.processingError.
Proof.
  assert (H1 : Endpoint.hasBrandInfo textRequest = true) by reflexivity.
  assert (H2 : Endpoint.selectTranslation (lit "en") = Some Endpoint.translation_en)
    by reflexivity.
  assert (H3 : findRelevantProducts asciiLower Scenario.catalog
                 entryWithoutRecommendations = Throw TypeError)
    by (vm_compute; reflexivity).
  split; [exact H1|]. split; [exact H2|]. split; [exact H3|].
  refine (ranking_exception_is_answered_500 asciiLower passService brokenReplyService
            Scenario.catalog textRequest Endpoint.translation_en
            entryWithoutRecommendations (or_intror H1) H2 _ eq_refl H3).
  intro Hi. discriminate Hi.
Defined.

(** ** The empty keyword *)

Lemma positiveCount_all (scores : list Z) :
  Forall (fun s => (0 < s)%Z) scores -> positiveCount scores = List.length scores.
Proof.
  unfold positiveCount. induction 1 as [|s scores Hs _ IH]; simpl; [reflexivity|].
  apply Z.ltb_lt in Hs. rewrite Hs. simpl. now rewrite IH.
Qed.

(** X19. The empty keyword floods the result.  When every row has a title
    and the extracted keywords contain the empty string (two adjacent spaces
    or a trailing space in the brand, or an empty tag, produce it), every row
    scores at least 3 and the ranking returns min(6, catalog size) products
    whatever the other keywords are. *)
Theorem empty_keyword_floods_result
  (toLowerCase : jsstring -> jsstring)
  (db : list Row) (sd : ShoeDetails) (kws : list jsstring) :
  titled db ->
  extractKeywords toLowerCase sd = Normal kws ->
  In [] kws ->
  Forall (fun p => (3 <= scoreOf toLowerCase kws p)%Z) db /\
  exists res,
    findRelevantProducts toLowerCase db sd = Normal res /\
    List.length res = Nat.min 6 (List.length db).
Proof.
  intros Hdb Hk Hin.
  assert (Hscore : Forall (fun p =>
            scoreProduct toLowerCase kws p
            = Normal (mkScored p (scoreOf toLowerCase kws p)) /\
            (3 <= scoreOf toLowerCase kws p)%Z) db).
  { eapply Forall_impl; [|exact Hdb]. intros p Hp. simpl in Hp.
    destruct (Title p) as [t|] eqn:Ht; [|congruence].
    destruct (forEach_scoreStep_empty_keyword toLowerCase p t kws 0 Ht Hin)
      as (s & Hs & Hpos).
    unfold scoreOf, scoreProduct. rewrite Hs. simpl. split; [reflexivity | lia]. }
  split; [eapply Forall_impl; [|exact Hscore]; intros p [_ H]; exact H|].
  assert (Hmap : mapM (scoreProduct toLowerCase kws) db
                 = Normal (map (fun p => mkScored p (scoreOf toLowerCase kws p)) db)).
  { apply mapM_total. eapply Forall_impl; [|exact Hscore]. intros p [H _]. exact H. }
  assert (Hres : exists res, findRelevantProducts toLowerCase db sd = Normal res).
  { unfold findRelevantProducts.
    destruct (Nat.eqb (List.length db) 0); [eexists; reflexivity|].
    rewrite Hk. simpl. rewrite Hmap. simpl. eexists; reflexivity. }
  destruct Hres as [res Hres]. exists res. split; [exact Hres|].
  rewrite (findRelevantProducts_positions toLowerCase db sd kws res Hk Hres).
  rewrite length_map, rankedPositions_count.
  rewrite positiveCount_all, length_map; [reflexivity|].
  rewrite Forall_map. eapply Forall_impl; [|exact Hscore].
  intros p [_ H]. simpl. lia.
Qed.

Lemma empty_keyword_floods_result_witness :
  titled Scenario.catalog /\
  extractKeywords asciiLower (mkShoe (Some (lit "Nike  Air")) None None None)
  = Normal [lit "nike"; []; lit "air"] /\
  In [] [lit "nike"; []; lit "air"] /\
  exists res,
    findRelevantProducts asciiLower Scenario.catalog
      (mkShoe (Some (lit "Nike  Air")) None None None) = Normal res /\
    List.length res = 3.
Proof.
  assert (H1 : titled Scenario.catalog) by (repeat constructor; discriminate).
  assert (H3 : In [] [lit "nike"; []; lit "air"]) by (simpl; tauto).
  split; [exact H1|]. split; [reflexivity|]. split; [exact H3|].
  exact (proj2 (empty_keyword_floods_result asciiLower Scenario.catalog
                  (mkShoe (Some (lit "Nike  Air")) None None None)
                  [lit "nike"; []; lit "air"] H1 eq_refl H3)).
Defined.

(** ** The string operations of the model *)

Lemma startsWith_iff (s p : jsstring) :
  startsWith s p = true <-> exists post, s = p ++ post.
Proof.
  revert s; induction p as [|c p IH]; intro s.
  - split; [intros _; now exists s | intros _; destruct s; reflexivity].
  - destruct s as [|d s].
    + split; [discriminate | intros [post H]; discriminate].
    + cbn [startsWith]. rewrite andb_true_iff, N.eqb_eq, IH. split.
      * intros [-> [post ->]]. now exists post.
      * intros [post H]. injection H as -> ->. split; [reflexivity | now exists post].
Qed.

(** [includes] is containment as a contiguous run of code units. *)
Lemma includes_iff (s kw : jsstring) :
  includes s kw = true <-> exists pre post, s = pre ++ kw ++ post.
Proof.
  induction s as [|d s IH].
  - cbn [includes]. rewrite orb_false_r, startsWith_iff. split.
    + intros [post H]. now exists [], post.
    + intros (pre & post & H). destruct pre; [now exists post|discriminate].
  - cbn [includes]. rewrite orb_true_iff, startsWith_iff, IH. split.
    + intros [[post H]|(pre & post & H)].
      * now exists [], post.
      * exists (d :: pre), post. now rewrite H.
    + intros (pre & post & H). destruct pre as [|e pre].
      * left. now exists post.
      * right. injection H as -> H. now exists pre, post.
Qed.

(** Joining the tokens of [splitBy] with the separators gives the string
    back when there is one separator, and no token contains a separator. *)
Lemma splitBy_tokens (is_sep : code_unit -> bool) (s : jsstring) :
  splitBy is_sep s <> [] /\
  Forall (fun w => forallb (fun c => negb (is_sep c)) w = true) (splitBy is_sep s).
Proof.
  induction s as [|c s [Hne IH]]; simpl.
  - split; [discriminate | repeat constructor].
  - destruct (is_sep c) eqn:Hc.
    + split; [discriminate | constructor; [reflexivity | exact IH]].
    + destruct (splitBy is_sep s) as [|w ws]; [contradiction|].
      split; [discriminate|].
      apply Forall_cons_iff in IH as [Hw Hws].
      constructor; [simpl; now rewrite Hc | exact Hws].
Qed.

Lemma split_space_join (s : jsstring) :
  match split_space s with
  | [] => False
  | w :: ws => s = w ++ flat_map (fun t => SPACE :: t) ws
  end.
Proof.
  unfold split_space. induction s as [|c s IH]; [reflexivity|].
  cbn [splitBy].
  destruct (splitBy (N.eqb SPACE) s) as [|w ws]; [contradiction|].
  destruct (N.eqb SPACE c) eqn:Hc.
  - apply N.eqb_eq in Hc. subst c. simpl. f_equal. exact IH.
  - simpl. f_equal. exact IH.
Qed.

Lemma trimStart_decompose (s : jsstring) :
  exists pre, s = pre ++ Endpoint.trimStart s /\
              forallb Endpoint.isTrimSpace pre = true.
Proof.
  induction s as [|c s (pre & Hs & Hpre)]; [now exists []|].
  simpl. destruct (Endpoint.isTrimSpace c) eqn:Hc.
  - exists (c :: pre). simpl. rewrite Hc, Hpre. split; [now rewrite Hs at 1 | reflexivity].
  - now exists [].
Qed.

(** [trim] removes a run of white space at each end and nothing else. *)
Lemma trim_decompose (s : jsstring) :
  exists pre post,
    s = pre ++ Endpoint.trim s ++ post /\
    forallb Endpoint.isTrimSpace pre = true /\
    forallb Endpoint.isTrimSpace post = true.
Proof.
  destruct (trimStart_decompose s) as (pre & Hs & Hpre).
  destruct (trimStart_decompose (rev (Endpoint.trimStart s))) as (q & Hr & Hq).
  exists pre, (rev q). unfold Endpoint.trim.
  split; [|split; [exact Hpre | now rewrite forallb_rev]].
  rewrite <- rev_app_distr, <- Hr, rev_involutive. exact Hs.
Qed.
